(** * Realtime telemetry client of the machine-tool monitoring dashboard

    A shallow embedding of the two classes of the dashboard's front end that
    carry state worth reasoning about:

    - [WebSocketManager] (connection lifecycle, reconnection with backoff,
      subscription set, message dispatch to listeners), and
    - [ChartManager.updateRealtimeChart] (the rolling sample window behind
      the realtime chart).

    Methods are state transformers in a small state-and-exception monad.
    Whatever the browser does on behalf of the code (sockets, timers, the
    console, the listeners registered by consumers) is kept in the same
    state as an environment, and every observable effect is appended to a
    chronological trace. *)

From Stdlib Require Import QArith Qminmax.
From stdpp Require Import gmap strings list pretty.

Open Scope string_scope.
Open Scope list_scope.

(** ** The browser's side *)

(** [WebSocket.readyState]. *)
Inductive ReadyState := CONNECTING | OPEN | CLOSING | CLOSED.

#[global] Instance ReadyState_eq_dec : EqDecision ReadyState.
Proof. solve_decision. Defined.

(** Messages handed to [send].  The timestamp of a pong is read from the
    clock and is not part of the model.  [OUnserialisable] stands for a
    value [JSON.stringify] throws on (an object with a cycle, a BigInt). *)
Inductive Outbound :=
| OSubscribe (machine_id : string)
| OUnsubscribe (machine_id : string)
| OPong
| OOther (body : string)
| OUnserialisable.

(** What the [alarm] property of a message holds: nothing ([undefined] or
    [null], on which reading [level] throws), or some other value, with its
    [level] property when that is a string. *)
Inductive Alarm :=
| AlarmAbsent
| AlarmValue (level : option string).

(** A parsed inbound message: the [type] property ([None] when it is absent
    or not a string), the [alarm] property, and the rest of the payload,
    which the manager only passes along. *)
Record Message := {
  m_type : option string;
  m_alarm : Alarm;
  m_payload : string
}.

(** What [JSON.parse] returns: [null], on which every property read throws,
    or a value that can be read as a message. *)
Inductive Json := JNull | JMsg (m : Message).

(** The argument a listener receives. *)
Inductive Data :=
| DMessage (m : Message)
| DOpen
| DClose (code : Z)
| DError
| DUndefined.

(** A listener is a callback of a consumer.  It is identified by [hid] (the
    identity [indexOf] compares), and on a given argument it either returns
    or throws.  What it does besides is the consumer's business: the model
    records the call and assumes the callback does not call back into the
    manager. *)
Record Handler := {
  hid : nat;
  hthrows : Data -> bool
}.

Inductive Level := LError | LWarn.

(** Observable effects, in the order they happen.  [console.log] and the
    writes to the connection indicator in the DOM are not recorded. *)
Inductive Effect :=
| NewSocket (sock : nat)                       (* new WebSocket(wsUrl) *)
| CloseSocket (sock : nat)                     (* ws.close() *)
| Sent (sock : nat) (frame : Outbound)         (* transmitted by ws.send *)
| Called (h : nat) (ev : string) (d : Data)    (* a listener is invoked *)
| TimerSet (delay : Q)                         (* setTimeout(connect, delay) *)
| Console (lvl : Level) (what : string)        (* console.error / warn *)
| AppCall (method : string).                   (* window.app.<method>(...) *)

(** ** The state of a [WebSocketManager] and of its environment *)

Record State := {
  (* fields of the object *)
  ws : option nat;
  isConnected : bool;
  reconnectAttempts : nat;
  maxReconnectAttempts : nat;
  reconnectInterval : Q;
  messageHandlers : gmap string (list Handler);
  subscriptions : list string;      (* a JS Set, in insertion order *)
  (* the environment *)
  sockets : list ReadyState;        (* every socket created so far *)
  timers : list Q;                  (* pending setTimeout(connect, _) *)
  window_app : option (list string);  (* the methods of window.app *)
  endpoint_valid : bool;            (* new WebSocket(wsUrl) does not throw *)
  audio_available : bool;           (* the Web Audio calls do not throw *)
  trace : list Effect
}.

Definition set_ws (v : option nat) (s : State) : State :=
  {| ws := v; isConnected := isConnected s;
     reconnectAttempts := reconnectAttempts s;
     maxReconnectAttempts := maxReconnectAttempts s;
     reconnectInterval := reconnectInterval s;
     messageHandlers := messageHandlers s; subscriptions := subscriptions s;
     sockets := sockets s; timers := timers s; window_app := window_app s;
     endpoint_valid := endpoint_valid s;
     audio_available := audio_available s; trace := trace s |}.

Definition set_isConnected (v : bool) (s : State) : State :=
  {| ws := ws s; isConnected := v;
     reconnectAttempts := reconnectAttempts s;
     maxReconnectAttempts := maxReconnectAttempts s;
     reconnectInterval := reconnectInterval s;
     messageHandlers := messageHandlers s; subscriptions := subscriptions s;
     sockets := sockets s; timers := timers s; window_app := window_app s;
     endpoint_valid := endpoint_valid s;
     audio_available := audio_available s; trace := trace s |}.

Definition set_reconnectAttempts (v : nat) (s : State) : State :=
  {| ws := ws s; isConnected := isConnected s;
     reconnectAttempts := v;
     maxReconnectAttempts := maxReconnectAttempts s;
     reconnectInterval := reconnectInterval s;
     messageHandlers := messageHandlers s; subscriptions := subscriptions s;
     sockets := sockets s; timers := timers s; window_app := window_app s;
     endpoint_valid := endpoint_valid s;
     audio_available := audio_available s; trace := trace s |}.

Definition set_reconnectInterval (v : Q) (s : State) : State :=
  {| ws := ws s; isConnected := isConnected s;
     reconnectAttempts := reconnectAttempts s;
     maxReconnectAttempts := maxReconnectAttempts s;
     reconnectInterval := v;
     messageHandlers := messageHandlers s; subscriptions := subscriptions s;
     sockets := sockets s; timers := timers s; window_app := window_app s;
     endpoint_valid := endpoint_valid s;
     audio_available := audio_available s; trace := trace s |}.

Definition set_messageHandlers (v : gmap string (list Handler)) (s : State)
  : State :=
  {| ws := ws s; isConnected := isConnected s;
     reconnectAttempts := reconnectAttempts s;
     maxReconnectAttempts := maxReconnectAttempts s;
     reconnectInterval := reconnectInterval s;
     messageHandlers := v; subscriptions := subscriptions s;
     sockets := sockets s; timers := timers s; window_app := window_app s;
     endpoint_valid := endpoint_valid s;
     audio_available := audio_available s; trace := trace s |}.

Definition set_subscriptions (v : list string) (s : State) : State :=
  {| ws := ws s; isConnected := isConnected s;
     reconnectAttempts := reconnectAttempts s;
     maxReconnectAttempts := maxReconnectAttempts s;
     reconnectInterval := reconnectInterval s;
     messageHandlers := messageHandlers s; subscriptions := v;
     sockets := sockets s; timers := timers s; window_app := window_app s;
     endpoint_valid := endpoint_valid s;
     audio_available := audio_available s; trace := trace s |}.

Definition set_sockets (v : list ReadyState) (s : State) : State :=
  {| ws := ws s; isConnected := isConnected s;
     reconnectAttempts := reconnectAttempts s;
     maxReconnectAttempts := maxReconnectAttempts s;
     reconnectInterval := reconnectInterval s;
     messageHandlers := messageHandlers s; subscriptions := subscriptions s;
     sockets := v; timers := timers s; window_app := window_app s;
     endpoint_valid := endpoint_valid s;
     audio_available := audio_available s; trace := trace s |}.

Definition set_timers (v : list Q) (s : State) : State :=
  {| ws := ws s; isConnected := isConnected s;
     reconnectAttempts := reconnectAttempts s;
     maxReconnectAttempts := maxReconnectAttempts s;
     reconnectInterval := reconnectInterval s;
     messageHandlers := messageHandlers s; subscriptions := subscriptions s;
     sockets := sockets s; timers := v; window_app := window_app s;
     endpoint_valid := endpoint_valid s;
     audio_available := audio_available s; trace := trace s |}.

Definition set_trace (v : list Effect) (s : State) : State :=
  {| ws := ws s; isConnected := isConnected s;
     reconnectAttempts := reconnectAttempts s;
     maxReconnectAttempts := maxReconnectAttempts s;
     reconnectInterval := reconnectInterval s;
     messageHandlers := messageHandlers s; subscriptions := subscriptions s;
     sockets := sockets s; timers := timers s; window_app := window_app s;
     endpoint_valid := endpoint_valid s;
     audio_available := audio_available s; trace := v |}.

(** ** A state-and-exception monad for the methods *)

Inductive Outcome (A : Type) :=
| Normal (a : A)
| Thrown (e : string).
Arguments Normal {A} a.
Arguments Thrown {A} e.

Definition M (A : Type) : Type := State -> Outcome A * State.

Definition ret {A} (a : A) : M A := fun s => (Normal a, s).

Definition throw {A} (e : string) : M A := fun s => (Thrown e, s).

Definition bind {A B} (m : M A) (k : A -> M B) : M B :=
  fun s =>
    match m s with
    | (Normal a, s') => k a s'
    | (Thrown e, s') => (Thrown e, s')
    end.

(** [try { body } catch (error) { handler }] *)
Definition try_catch {A} (body : M A) (handler : string -> M A) : M A :=
  fun s =>
    match body s with
    | (Normal a, s') => (Normal a, s')
    | (Thrown e, s') => handler e s'
    end.

Definition get : M State := fun s => (Normal s, s).

Definition modify (f : State -> State) : M unit := fun s => (Normal tt, f s).

Notation "'let*' x := m 'in' k" := (bind m (fun x => k))
  (at level 10, x name, m at level 100, k at level 200).
Notation "m >> k" := (bind m (fun _ => k))
  (at level 90, right associativity).

(** The state a computation ends in, and how it ends. *)
Definition exec {A} (m : M A) (s : State) : State := snd (m s).
Definition outcome {A} (m : M A) (s : State) : Outcome A := fst (m s).

Definition effect (e : Effect) : M unit :=
  modify (fun s => set_trace (trace s ++ [e]) s).

Definition console_error (what : string) : M unit := effect (Console LError what).
Definition console_warn (what : string) : M unit := effect (Console LWarn what).

(** ** The WebSocket interface, as the manager uses it *)

(** [new WebSocket(wsUrl)]: throws on a URL the browser rejects; otherwise
    the new socket starts in CONNECTING. *)
Definition new_WebSocket : M nat :=
  let* s := get in
  if endpoint_valid s then
    let i := length (sockets s) in
    modify (set_sockets (sockets s ++ [CONNECTING])) >>
    effect (NewSocket i) >>
    ret i
  else throw "SyntaxError".

(** [ws.send(data)]: throws InvalidStateError while CONNECTING, transmits
    when OPEN, and silently discards the data when CLOSING or CLOSED. *)
Definition ws_send (i : nat) (frame : Outbound) : M unit :=
  let* s := get in
  match sockets s !! i with
  | Some CONNECTING => throw "InvalidStateError"
  | Some OPEN => effect (Sent i frame)
  | _ => ret tt
  end.

(** [ws.close()]: starts the closing handshake of a socket that is not yet
    closing. *)
Definition ws_close (i : nat) : M unit :=
  let* s := get in
  effect (CloseSocket i) >>
  match sockets s !! i with
  | Some CONNECTING | Some OPEN =>
      modify (fun s => set_sockets (<[i := CLOSING]> (sockets s)) s)
  | _ => ret tt
  end.

(** ** WebSocketManager *)

Definition initial_reconnectInterval : Q := 5000.

(** [constructor()], in a given environment: the application object, whether
    the page's address gives a valid endpoint, whether Web Audio works. *)
Definition constructor_in (app : option (list string)) (valid audio : bool)
  : State :=
  {| ws := None; isConnected := false;
     reconnectAttempts := 0; maxReconnectAttempts := 5;
     reconnectInterval := initial_reconnectInterval;
     messageHandlers := ∅; subscriptions := [];
     sockets := []; timers := []; window_app := app;
     endpoint_valid := valid; audio_available := audio; trace := [] |}.

(** [constructor()] in a browser with Web Audio. *)
Definition constructor (app : option (list string)) (valid : bool) : State :=
  constructor_in app valid true.

(** [on(eventType, handler)] *)
Definition on (eventType : string) (handler : Handler) : M unit :=
  let* s := get in
  let handlers := default [] (messageHandlers s !! eventType) in
  modify (set_messageHandlers
            (<[eventType := handlers ++ [handler]]> (messageHandlers s))).

(** [handlers.indexOf(handler)], then [handlers.splice(index, 1)] when the
    index is not -1. *)
Fixpoint remove_first (h : nat) (handlers : list Handler) : list Handler :=
  match handlers with
  | [] => []
  | x :: rest => if Nat.eqb (hid x) h then rest else x :: remove_first h rest
  end.

(** [off(eventType, handler)] *)
Definition off (eventType : string) (handler : Handler) : M unit :=
  let* s := get in
  match messageHandlers s !! eventType with
  | Some handlers =>
      modify (set_messageHandlers
                (<[eventType := remove_first (hid handler) handlers]>
                   (messageHandlers s)))
  | None => ret tt
  end.

(** One turn of the [forEach] of [emit]: the call sits in a try/catch that
    reports the error on the console. *)
Definition call_handler (eventType : string) (data : Data) (h : Handler)
  : M unit :=
  try_catch
    (effect (Called (hid h) eventType data) >>
     if hthrows h data then throw "listener" else ret tt)
    (fun _ => console_error eventType).

Fixpoint call_handlers (eventType : string) (data : Data)
  (handlers : list Handler) : M unit :=
  match handlers with
  | [] => ret tt
  | h :: rest =>
      call_handler eventType data h >> call_handlers eventType data rest
  end.

(** [emit(eventType, data)] *)
Definition emit (eventType : string) (data : Data) : M unit :=
  let* s := get in
  match messageHandlers s !! eventType with
  | Some handlers => call_handlers eventType data handlers
  | None => ret tt
  end.

(** [JSON.stringify] accepts the message. *)
Definition serialisable (message : Outbound) : bool :=
  match message with
  | OUnserialisable => false
  | _ => true
  end.

(** [typeof message === 'string' ? message : JSON.stringify(message)] *)
Definition stringify (message : Outbound) : M unit :=
  if serialisable message then ret tt else throw "TypeError".

(** [send(message)] *)
Definition send (message : Outbound) : M bool :=
  let* s := get in
  match isConnected s, ws s with
  | true, Some i =>
      try_catch
        (stringify message >> ws_send i message >> ret true)
        (fun _ => console_error "send failed" >> ret false)
  | _, _ => console_warn "not connected" >> ret false
  end.

(** [this.subscriptions.add(machineId)]: a Set keeps the position of an
    element it already has. *)
Definition set_add (x : string) (l : list string) : list string :=
  if bool_decide (x ∈ l) then l else l ++ [x].

(** [this.subscriptions.delete(machineId)] *)
Definition set_delete (x : string) (l : list string) : list string :=
  filter (fun y => y ≠ x) l.

(** [subscribe(machineId)] *)
Definition subscribe (machineId : string) : M bool :=
  let* sent := send (OSubscribe machineId) in
  if sent : bool then
    modify (fun s => set_subscriptions (set_add machineId (subscriptions s)) s) >>
    ret true
  else ret false.

(** [unsubscribe(machineId)] *)
Definition unsubscribe (machineId : string) : M bool :=
  let* sent := send (OUnsubscribe machineId) in
  if sent : bool then
    modify (fun s =>
              set_subscriptions (set_delete machineId (subscriptions s)) s) >>
    ret true
  else ret false.

(** The body of the [for ... of] of [resubscribe].  [subscribe] can only add
    a topic the Set already has, so the Set does not change under the
    iteration and the loop visits the members it had on entry. *)
Fixpoint subscribe_each (topics : list string) : M unit :=
  match topics with
  | [] => ret tt
  | t :: rest => subscribe t >> subscribe_each rest
  end.

(** [resubscribe()] *)
Definition resubscribe : M unit :=
  let* s := get in subscribe_each (subscriptions s).

(** [Math.min(this.reconnectInterval * 1.5, 30000)].  The intervals are
    IEEE doubles in the source.  Every value the manager can reach from the
    constructor's 5000 is a multiple of 1/2 below 2^53, on which the product
    and the minimum are exact, so rationals compute the same numbers.
    [Qred] keeps them in lowest terms, where equal rationals are equal
    terms. *)
Definition next_interval (interval : Q) : Q :=
  Qred (Qmin (interval * (3 # 2)) 30000).

(** [scheduleReconnect()], with [connect] still to be defined: the timer's
    callback is always [() => this.connect()], and a pending timer is
    represented by its delay. *)
Definition scheduleReconnect : M unit :=
  let* s := get in
  if Nat.ltb (reconnectAttempts s) (maxReconnectAttempts s) then
    modify (fun s => set_reconnectAttempts (S (reconnectAttempts s)) s) >>
    effect (TimerSet (reconnectInterval s)) >>
    modify (fun s => set_timers (timers s ++ [reconnectInterval s]) s) >>
    modify (fun s => set_reconnectInterval (next_interval (reconnectInterval s)) s)
  else
    console_error "max reconnect attempts" >>
    emit "max_reconnect_attempts_reached" DUndefined.

(** [connect()] *)
Definition connect : M unit :=
  try_catch
    (let* i := new_WebSocket in modify (set_ws (Some i)))
    (fun _ => console_error "connect failed" >> scheduleReconnect).

(** [disconnect()] *)
Definition disconnect : M unit :=
  let* s := get in
  match ws s with
  | Some i => ws_close i >> modify (set_ws None)
  | None => ret tt
  end >>
  modify (set_isConnected false).

(** [onOpen(event)] *)
Definition onOpen (event : Data) : M unit :=
  modify (set_isConnected true) >>
  modify (set_reconnectAttempts 0) >>
  resubscribe >>
  emit "connected" event.

(** [onClose(event)] *)
Definition onClose (code : Z) : M unit :=
  modify (set_isConnected false) >>
  emit "disconnected" (DClose code) >>
  if bool_decide (code ≠ 1000%Z) then scheduleReconnect else ret tt.

(** [onError(event)] *)
Definition onError : M unit :=
  console_error "socket error" >> emit "error" DError.

(** [window.app && window.app.<method>] guards every call into the
    application object; the call itself is taken to return. *)
Definition app_call (method : string) : M unit :=
  let* s := get in
  match window_app s with
  | Some methods =>
      if bool_decide (method ∈ methods) then effect (AppCall method) else ret tt
  | None => ret tt
  end.

Definition handleWelcomeMessage (message : Message) : M unit :=
  emit "welcome" (DMessage message).

Definition handleMachineDataMessage (message : Message) : M unit :=
  app_call "updateMachineData" >>
  emit "machine_data" (DMessage message).

(** [playAlarmSound(level)]: one try/catch around the Web Audio calls and
    [level.toLowerCase()], which throws when [level] is not a string; the
    catch writes a console warning.  The sound itself is not modelled. *)
Definition playAlarmSound (level : option string) : M unit :=
  try_catch
    (let* s := get in
     if audio_available s then
       match level with
       | Some _ => ret tt
       | None => throw "TypeError"
       end
     else throw "TypeError")
    (fun _ => console_warn "alarm sound failed").

(** [handleAlarmMessage(message)]: the argument [alarm.level] of
    [playAlarmSound] is evaluated here, outside any try, and reading
    [level] of [undefined] or [null] throws. *)
Definition handleAlarmMessage (message : Message) : M unit :=
  app_call "showAlarmNotification" >>
  match m_alarm message with
  | AlarmAbsent => throw "TypeError"
  | AlarmValue level => playAlarmSound level
  end >>
  emit "alarm" (DMessage message).

Definition handleStatusChangeMessage (message : Message) : M unit :=
  app_call "updateMachineStatus" >>
  emit "status_change" (DMessage message).

Definition handleControlResponseMessage (message : Message) : M unit :=
  emit "control_response" (DMessage message).

Definition handleSystemNotificationMessage (message : Message) : M unit :=
  app_call "showSystemNotification" >>
  emit "system_notification" (DMessage message).

Definition handleMaintenanceAlertMessage (message : Message) : M unit :=
  emit "maintenance_alert" (DMessage message).

Definition handlePerformanceReportMessage (message : Message) : M unit :=
  emit "performance_report" (DMessage message).

Definition handleSubscriptionConfirmedMessage (message : Message) : M unit :=
  emit "subscription_confirmed" (DMessage message).

Definition handleUnsubscriptionConfirmedMessage (message : Message) : M unit :=
  emit "unsubscription_confirmed" (DMessage message).

Definition handlePingMessage (message : Message) : M unit :=
  let* _ := send OPong in ret tt.

Definition handleErrorMessage (message : Message) : M unit :=
  console_error "server error" >>
  app_call "showErrorNotification" >>
  emit "server_error" (DMessage message).

(** [case name:] of the switch on [message.type]. *)
Definition is_case (messageType : option string) (name : string) : bool :=
  bool_decide (messageType = Some name).

(** [this.emit(messageType, message)].  Listeners are registered under
    event names, which are strings: a type that is not a string has none. *)
Definition emit_type (messageType : option string) (data : Data) : M unit :=
  match messageType with
  | Some t => emit t data
  | None => ret tt
  end.

(** [handleMessage(message)] *)
Definition handleMessage (message : Json) : M unit :=
  match message with
  | JNull => throw "TypeError"
  | JMsg m =>
      let messageType := m_type m in
      (if is_case messageType "welcome" then handleWelcomeMessage m
       else if is_case messageType "machine_data" then handleMachineDataMessage m
       else if is_case messageType "alarm" then handleAlarmMessage m
       else if is_case messageType "status_change" then handleStatusChangeMessage m
       else if is_case messageType "control_response" then handleControlResponseMessage m
       else if is_case messageType "system_notification" then handleSystemNotificationMessage m
       else if is_case messageType "maintenance_alert" then handleMaintenanceAlertMessage m
       else if is_case messageType "performance_report" then handlePerformanceReportMessage m
       else if is_case messageType "subscription_confirmed" then handleSubscriptionConfirmedMessage m
       else if is_case messageType "unsubscription_confirmed" then handleUnsubscriptionConfirmedMessage m
       else if is_case messageType "ping" then handlePingMessage m
       else if is_case messageType "error" then handleErrorMessage m
       else console_warn "unknown message type") >>
      emit "message" (DMessage m) >>
      emit_type messageType (DMessage m)
  end.

Section Frames.

(** [JSON.parse]: [None] when it throws a SyntaxError. *)
Variable JSON_parse : string -> option Json.

(** [onMessage(event)], on the frame [event.data]. *)
Definition onMessage (frame : string) : M unit :=
  try_catch
    (match JSON_parse frame with
     | Some message => handleMessage message
     | None => throw "SyntaxError"
     end)
    (fun _ => console_error "parse failed").

End Frames.

(** ** What the browser does with the handlers the manager installed *)

(** Socket [i] completes its handshake: its [onopen] is the manager's. *)
Definition socket_opens (i : nat) : M unit :=
  modify (fun s => set_sockets (<[i := OPEN]> (sockets s)) s) >>
  onOpen DOpen.

(** Socket [i] is closed, with a close code. *)
Definition socket_closes (i : nat) (code : Z) : M unit :=
  modify (fun s => set_sockets (<[i := CLOSED]> (sockets s)) s) >>
  onClose code.

(** The [k]-th pending timer expires and runs [() => this.connect()]. *)
Definition timer_fires (k : nat) : M unit :=
  modify (fun s => set_timers (delete k (timers s)) s) >>
  connect.

(** Connection attempts in flight: sockets still in CONNECTING. *)
Definition in_flight (s : State) : nat :=
  length (filter (fun r => r = CONNECTING) (sockets s)).

(** ** Reading a trace *)

Definition sends_of (t : list Effect) : list (nat * Outbound) :=
  omap (fun e => match e with Sent i f => Some (i, f) | _ => None end) t.

Definition calls_of (t : list Effect) : list (nat * string * Data) :=
  omap (fun e => match e with Called h ev d => Some (h, ev, d) | _ => None end) t.

Definition timers_set_of (t : list Effect) : list Q :=
  omap (fun e => match e with TimerSet d => Some d | _ => None end) t.

Definition sockets_created_of (t : list Effect) : list nat :=
  omap (fun e => match e with NewSocket i => Some i | _ => None end) t.

(** The calls [emit] makes to a list of listeners. *)
Definition calls_to (ev : string) (d : Data) (handlers : list Handler)
  : list (nat * string * Data) :=
  map (fun h => (hid h, ev, d)) handlers.

(** The listeners registered under an event name, in registration order. *)
Definition listeners (ev : string) (s : State) : list Handler :=
  default [] (messageHandlers s !! ev).

(** ** ChartManager: the rolling window of the realtime chart *)

Module ChartManager.

(** One telemetry record.  [timestamp] is the ISO rendering of
    [new Date(data.timestamp)], [None] for an invalid date, on which
    [toISOString] throws a RangeError.  A measurement is [None] when the
    property is missing. *)
Record MachineData := {
  timestamp : option string;
  temperature : option Q;
  vibration : option Q;
  current : option Q;
  speed : option Q;
  pressure : option Q
}.

(** The part of the chart's option object the update touches:
    [option.xAxis[0].data] and [option.series[k].data].  A series entry is
    [None] where the source pushes [undefined]. *)
Record ChartOption := {
  xAxis_data : list string;
  series : list (list (option Q))
}.

Record ChartManager := {
  realtimeChart : option ChartOption;   (* null until initRealtimeChart *)
  maxDataPoints : nat
}.

(** [constructor()], before the charts are set up. *)
Definition constructor : ChartManager :=
  {| realtimeChart := None; maxDataPoints := 50 |}.

(** [initRealtimeChart()]: five line series, all empty; nothing happens
    when the container element is missing. *)
Definition initRealtimeChart (container : bool) (cm : ChartManager)
  : ChartManager :=
  if container then
    {| realtimeChart := Some {| xAxis_data := []; series := replicate 5 [] |};
       maxDataPoints := maxDataPoints cm |}
  else cm.

(** [if (a.length >= this.maxDataPoints) a.shift(); a.push(x)] *)
Definition shift_push {A} (cap : nat) (a : list A) (x : A) : list A :=
  (if Nat.leb cap (length a) then tail a else a) ++ [x].

(** [x || 0] on a measurement. *)
Definition or0 (x : option Q) : Q := default 0%Q x.

(** The array [seriesData] of the update. *)
Definition seriesData (data : MachineData) : list Q :=
  [ or0 (temperature data); or0 (vibration data); or0 (current data);
    or0 (speed data); or0 (pressure data) ].

(** [updateRealtimeChart(machineId, data)] *)
Definition updateRealtimeChart (machineId : string) (data : MachineData)
  (cm : ChartManager) : Outcome ChartManager :=
  match realtimeChart cm with
  | None => Normal cm
  | Some option =>
      match timestamp data with
      | None => Thrown "RangeError"
      | Some timeStr =>
          let cap := maxDataPoints cm in
          Normal
            {| realtimeChart :=
                 Some {| xAxis_data := shift_push cap (xAxis_data option) timeStr;
                         series :=
                           imap (fun index sdata =>
                                   shift_push cap sdata (seriesData data !! index))
                                (series option) |};
               maxDataPoints := cap |}
      end
  end.

(** A run of updates for one machine, stopping at the first that throws. *)
Fixpoint updates (machineId : string) (samples : list MachineData)
  (cm : ChartManager) : Outcome ChartManager :=
  match samples with
  | [] => Normal cm
  | data :: rest =>
      match updateRealtimeChart machineId data cm with
      | Normal cm' => updates machineId rest cm'
      | Thrown e => Thrown e
      end
  end.

(** Every buffer of the chart is within the capacity. *)
Definition within_capacity (cm : ChartManager) : Prop :=
  match realtimeChart cm with
  | None => True
  | Some option =>
      length (xAxis_data option) <= maxDataPoints cm /\
      Forall (fun sdata => length sdata <= maxDataPoints cm) (series option)
  end.

(** The vocabulary of the statements about the chart: runs of appends,
    and a sample run on a fresh chart. *)

(** Appending a run of values to one buffer. *)
Definition appends {A} (cap : nat) (a : list A) (xs : list A) : list A :=
  foldl (shift_push cap) a xs.

(** The entries series [k] receives from a run of records. *)
Definition column (k : nat) (samples : list MachineData) : list (option Q) :=
  map (fun d => seriesData d !! k) samples.

(** The labels the time axis receives. *)
Definition stamps (samples : list MachineData) : list string :=
  omap timestamp samples.

(** The chart as [initRealtimeChart] sets it up, and a run of 60 records
    whose temperature counts from 1 to 60. *)
Definition fresh_chart : ChartManager := initRealtimeChart true constructor.

Definition record (n : nat) : MachineData :=
  {| timestamp := Some "2024-01-01T00:00:00.000Z";
     temperature := Some (inject_Z (Z.of_nat n));
     vibration := None; current := None; speed := None; pressure := None |}.

Definition sample_run : list MachineData := map record (seq 1 60).

(** The x axis and every series of the realtime chart have the same number
    of entries. *)
Definition aligned (cm : ChartManager) : Prop :=
  match realtimeChart cm with
  | None => True
  | Some opt =>
      Forall (fun sdata => length sdata = length (xAxis_data opt)) (series opt)
  end.

(** Every entry of every series is a number. *)
Definition all_numbers (cm : ChartManager) : Prop :=
  match realtimeChart cm with
  | None => True
  | Some opt => Forall (Forall is_Some) (series opt)
  end.

(** The length of a buffer after an append depends on its length only. *)
Definition next_length (cap n : nat) : nat :=
  (if Nat.leb cap n then pred n else n) + 1.

(** A record whose timestamp is not a date. *)
Definition undated : MachineData :=
  {| timestamp := None; temperature := Some 21%Q; vibration := None;
     current := None; speed := None; pressure := None |}.

(** *** The temperature trend chart *)

(** An entry of a trend series: the set-up fills the series with the
    strings [toFixed(1)] returns, the updates push what they are given. *)
Inductive Point := PText (text : string) | PNumber (value : Q).

Record TrendSeries := {
  name : string;
  data : list Point
}.

(** The part of the trend chart's option object the code touches:
    [option.xAxis.data] and [option.series]. *)
Record TrendOption := {
  trend_labels : list string;
  trend_series : list TrendSeries
}.

(** [option.series.find(s => s.name === machineId)], and the update of the
    series found, in place. *)
Fixpoint update_found (machineId : string)
  (f : list Point -> list Point) (l : list TrendSeries) : list TrendSeries :=
  match l with
  | [] => []
  | s :: rest =>
      if String.eqb (name s) machineId
      then {| name := name s; data := f (data s) |} :: rest
      else s :: update_found machineId f rest
  end.

(** [updateTemperatureTrendChart(machineId, temperature)], on the field
    [this.temperatureTrendChart], which is all it reads and writes. *)
Definition updateTemperatureTrendChart (machineId : string)
  (temperature : Point) (chart : option TrendOption) : option TrendOption :=
  match chart with
  | None => None
  | Some opt =>
      Some {| trend_labels := trend_labels opt;
              trend_series :=
                update_found machineId
                  (fun sdata => shift_push 24 sdata temperature)
                  (trend_series opt) |}
  end.

(** A run of trend updates, each for a machine and a temperature. *)
Fixpoint trend_updates (us : list (string * Point))
  (chart : option TrendOption) : option TrendOption :=
  match us with
  | [] => chart
  | (machineId, temperature) :: rest =>
      trend_updates rest (updateTemperatureTrendChart machineId temperature chart)
  end.

Section Environment.

(** [new Date().getTime()] at the call, and [getHours()] of a time stamp. *)
Variable now : Z.
Variable getHours : Z -> Z.

(** [Math.random()], call by call, and [toFixed(1)]. *)
Variable Math_random : nat -> Q.
Variable toFixed1 : Q -> string.

(** [time.getHours() + ':00'] for the time stamp [i] hours before [now]. *)
Definition hour_label (i : Z) : string :=
  pretty (getHours (now - i * 60 * 60 * 1000)%Z) +:+ ":00".

(** The loop of [generateTimeLabels]:
    [for (let i = hours - 1; i >= 0; i--) labels.push(...)]. *)
Fixpoint labels_loop (fuel : nat) (i : Z) (labels : list string)
  : list string :=
  match fuel with
  | 0 => labels
  | S fuel' =>
      if (0 <=? i)%Z
      then labels_loop fuel' (i - 1)%Z (labels ++ [hour_label i])
      else labels
  end.

(** [generateTimeLabels(hours)] *)
Definition generateTimeLabels (hours : Z) : list string :=
  labels_loop (Z.to_nat hours) (hours - 1)%Z [].

(** [generateRandomData(count, min, max)], when [k] calls of
    [Math.random] were made before. *)
Definition generateRandomData (count : nat) (min max : Q) (k : nat)
  : list Point :=
  map (fun i => PText (toFixed1 (Math_random (k + i) * (max - min) + min)%Q))
      (seq 0 count).

(** [initTemperatureTrendChart()]: nothing happens when the container
    element is missing. *)
Definition initTemperatureTrendChart (container : bool)
  (chart : option TrendOption) : option TrendOption :=
  if container then
    Some {| trend_labels := generateTimeLabels 24;
            trend_series :=
              [ {| name := "CNC001"; data := generateRandomData 24 25 80 0 |};
                {| name := "MILL001"; data := generateRandomData 24 25 80 24 |};
                {| name := "DRILL001"; data := generateRandomData 24 25 80 48 |} ] |}
  else chart.

End Environment.

End ChartManager.

(** * Vocabulary of the statements

    Effects appended to the trace, big-step summaries of the methods,
    scenarios, and the sample states the examples run on. *)

(** The state with more effects on its trace. *)
Definition add_effects (es : list Effect) (s : State) : State :=
  set_trace (trace s ++ es) s.

(** What a computation appends to the trace. *)
Definition effects_of {A} (m : M A) (s : State) : list Effect :=
  drop (length (trace s)) (trace (exec m s)).

(** The effects of [emit] on a list of listeners: each one is called, and a
    throw is reported on the console before the next one is called. *)
Definition emit_effects (ev : string) (d : Data) (handlers : list Handler)
  : list Effect :=
  flat_map (fun h => Called (hid h) ev d ::
                     if hthrows h d then [Console LError ev] else [])
           handlers.

(** The manager is connected and its current socket is open. *)
Definition connected_on (s : State) (i : nat) : Prop :=
  isConnected s = true /\ ws s = Some i /\ sockets s !! i = Some OPEN.

(** What [send] returns and what it appends to the trace, read off the
    connected flag and the state of the current socket. *)
Definition send_result (s : State) : bool :=
  match isConnected s, ws s with
  | true, Some i =>
      match sockets s !! i with Some CONNECTING => false | _ => true end
  | _, _ => false
  end.

Definition send_effects (f : Outbound) (s : State) : list Effect :=
  match isConnected s, ws s with
  | true, Some i =>
      if serialisable f then
        match sockets s !! i with
        | Some CONNECTING => [Console LError "send failed"]
        | Some OPEN => [Sent i f]
        | _ => []
        end
      else [Console LError "send failed"]
  | _, _ => [Console LWarn "not connected"]
  end.

(** Sample listeners and a session to run the methods on: one listener on
    the wildcard channel, one on ["ping"], and socket 0 open. *)
Definition quiet (n : nat) : Handler := {| hid := n; hthrows := fun _ => false |}.
Definition faulty (n : nat) : Handler := {| hid := n; hthrows := fun _ => true |}.

Definition message_of_type (t : string) : Message :=
  {| m_type := Some t; m_alarm := AlarmAbsent; m_payload := "{}" |}.

Definition ping_message : Message := message_of_type "ping".

Definition session : State :=
  exec (on "message" (quiet 1) >> on "ping" (quiet 2) >>
        connect >> socket_opens 0)
       (constructor None true).

(** No listener registered under [ev] is called in a stretch of trace. *)
Definition no_listener_called (ev : string) (es : list Effect) : Prop :=
  forall h d, (h, ev, d) ∉ calls_of es.

(** The states the lifecycle methods end in, written out field by field;
    each is tied to its method by a [_run] lemma below. *)
Definition gave_up_effects (s : State) : list Effect :=
  Console LError "max reconnect attempts" ::
  emit_effects "max_reconnect_attempts_reached" DUndefined
    (listeners "max_reconnect_attempts_reached" s).

Definition after_scheduleReconnect (s : State) : State :=
  if Nat.ltb (reconnectAttempts s) (maxReconnectAttempts s) then
    set_reconnectInterval (next_interval (reconnectInterval s))
      (set_timers (timers s ++ [reconnectInterval s])
         (add_effects [TimerSet (reconnectInterval s)]
            (set_reconnectAttempts (S (reconnectAttempts s)) s)))
  else add_effects (gave_up_effects s) s.

Definition after_connect (s : State) : State :=
  if endpoint_valid s then
    set_ws (Some (length (sockets s)))
      (add_effects [NewSocket (length (sockets s))]
         (set_sockets (sockets s ++ [CONNECTING]) s))
  else
    after_scheduleReconnect (add_effects [Console LError "connect failed"] s).

Definition after_onClose (code : Z) (s : State) : State :=
  let s1 :=
    add_effects (emit_effects "disconnected" (DClose code)
                   (listeners "disconnected" s))
      (set_isConnected false s) in
  if bool_decide (code <> 1000%Z) then after_scheduleReconnect s1 else s1.

Definition after_disconnect (s : State) : State :=
  set_isConnected false
    match ws s with
    | Some i =>
        set_ws None
          (match sockets s !! i with
           | Some CONNECTING | Some OPEN =>
               set_sockets (<[i := CLOSING]> (sockets s))
           | _ => fun s => s
           end (add_effects [CloseSocket i] s))
    | None => s
    end.

Definition after_onOpen (event : Data) (i : nat) (s : State) : State :=
  add_effects
    (map (fun t => Sent i (OSubscribe t)) (subscriptions s) ++
     emit_effects "connected" event (listeners "connected" s))
    (set_reconnectAttempts 0 (set_isConnected true s)).

(** What [scheduleReconnect] appends to the trace, and what it leaves
    alone. *)
Definition schedule_effects (s : State) : list Effect :=
  if Nat.ltb (reconnectAttempts s) (maxReconnectAttempts s)
  then [TimerSet (reconnectInterval s)]
  else gave_up_effects s.

Definition onClose_effects (code : Z) (s : State) : list Effect :=
  emit_effects "disconnected" (DClose code) (listeners "disconnected" s) ++
  if bool_decide (code <> 1000%Z)
  then schedule_effects (set_isConnected false s)
  else [].

Inductive Call := CSubscribe (topic : string) | CUnsubscribe (topic : string).

(** A sequence of [subscribe] and [unsubscribe] calls. *)
Fixpoint calls (cs : list Call) : M unit :=
  match cs with
  | [] => ret tt
  | CSubscribe t :: rest => subscribe t >> calls rest
  | CUnsubscribe t :: rest => unsubscribe t >> calls rest
  end.

(** The socket the manager holds completes its handshake. *)
Definition current_socket_opens : M unit :=
  let* s := get in
  match ws s with
  | Some j => socket_opens j
  | None => ret tt
  end.

(** A forced disconnect followed by a reconnection: socket [i] is closed
    with [code], [connect()] runs, and the new socket opens. *)
Definition reconnect (i : nat) (code : Z) : M unit :=
  socket_closes i code >> connect >> current_socket_opens.

(** A session whose connection was lost: socket 0 closed abnormally and a
    retry is pending. *)
Definition lost_session : State := exec (socket_closes 0 1006) session.

(** A session that subscribed to a machine and then lost its connection. *)
Definition offline_subscribed : State :=
  exec (subscribe "M-01" >> socket_closes 0 1006) session.

(** A run of close events, one after the other. *)
Fixpoint closes (codes : list Z) : M unit :=
  match codes with
  | [] => ret tt
  | code :: rest => onClose code >> closes rest
  end.

(** The delays of [n] retries scheduled in a row, starting from [interval]. *)
Fixpoint delays (n : nat) (interval : Q) : list Q :=
  match n with
  | 0 => []
  | S n' => interval :: delays n' (next_interval interval)
  end.

(** A stand-in for [JSON.parse] on the frames of the examples: the literal
    [null] parses to null, a number parses to a value without properties,
    and the other example frames are not JSON. *)
Definition parse_literal (frame : string) : option Json :=
  if bool_decide (frame = "null") then Some JNull
  else if bool_decide (frame = "42")
       then Some (JMsg {| m_type := None; m_alarm := AlarmAbsent; m_payload := frame |})
       else None.

(** What a guarded call into [window.app] appends to the trace. *)
Definition app_effects (method : string) (s : State) : list Effect :=
  match window_app s with
  | Some methods => if bool_decide (method ∈ methods) then [AppCall method] else []
  | None => []
  end.

(** The types whose [case] of the switch already emits the typed event
    before the two [emit] calls at the end of [handleMessage]. *)
(** What [playAlarmSound(level)] leaves in the trace: nothing when the sound
    plays, the warning of its catch otherwise. *)
Definition alarm_sound_effects (level : option string) (s : State)
  : list Effect :=
  match audio_available s, level with
  | true, Some _ => []
  | _, _ => [Console LWarn "alarm sound failed"]
  end.

(** An alarm message without an [alarm] property, and one whose [alarm]
    property holds a number. *)
Definition alarm_without_object : Message :=
  {| m_type := Some "alarm"; m_alarm := AlarmAbsent; m_payload := "{}" |}.

Definition alarm_with_number : Message :=
  {| m_type := Some "alarm"; m_alarm := AlarmValue None; m_payload := "{}" |}.

Definition emitted_in_switch : list string :=
  [ "welcome"; "machine_data"; "status_change"; "control_response";
    "system_notification"; "maintenance_alert"; "performance_report";
    "subscription_confirmed"; "unsubscription_confirmed" ].

(** A manager with the application's listener on ["machine_data"] and one
    listener on the wildcard channel. *)
Definition dashboard : State :=
  exec (on "machine_data" (quiet 1) >> on "message" (quiet 2) >>
        connect >> socket_opens 0)
       (constructor None true).

(** [getConnectionState()]; [Array.from] lists the Set in insertion order. *)
Record ConnectionState := {
  cs_isConnected : bool;
  cs_reconnectAttempts : nat;
  cs_subscriptions : list string
}.

Definition getConnectionState (s : State) : ConnectionState :=
  {| cs_isConnected := isConnected s;
     cs_reconnectAttempts := reconnectAttempts s;
     cs_subscriptions := subscriptions s |}.

(** Effects that neither create nor close a socket nor set a timer. *)
Definition passive (e : Effect) : Prop :=
  match e with
  | NewSocket _ | CloseSocket _ | TimerSet _ => False
  | _ => True
  end.

(** The console errors in a stretch of trace. *)
Definition console_errors_of (t : list Effect) : list string :=
  omap (fun e => match e with Console LError what => Some what | _ => None end) t.

(** The console warnings in a stretch of trace. *)
Definition console_warnings_of (t : list Effect) : list string :=
  omap (fun e => match e with Console LWarn what => Some what | _ => None end) t.

(** The message types with a [case] of their own in [handleMessage]. *)
Definition switch_cases : list string :=
  [ "welcome"; "machine_data"; "alarm"; "status_change"; "control_response";
    "system_notification"; "maintenance_alert"; "performance_report";
    "subscription_confirmed"; "unsubscription_confirmed"; "ping"; "error" ].

(** What can happen to a manager: the calls of its public methods, and the
    events the browser delivers to the handlers it installed. *)
Inductive Action :=
| AConnect
| ADisconnect
| ASend (message : Outbound)
| ASubscribe (machineId : string)
| AUnsubscribe (machineId : string)
| AOn (eventType : string) (handler : Handler)
| AOff (eventType : string) (handler : Handler)
| ESocketOpens (i : nat)
| ESocketMessage (frame : string)
| ESocketCloses (i : nat) (code : Z)
| ESocketError
| ETimerFires (k : nat).

Section Runs.

Variable JSON_parse : string -> option Json.

Definition step (a : Action) : M unit :=
  match a with
  | AConnect => connect
  | ADisconnect => disconnect
  | ASend message => let* _ := send message in ret tt
  | ASubscribe machineId => let* _ := subscribe machineId in ret tt
  | AUnsubscribe machineId => let* _ := unsubscribe machineId in ret tt
  | AOn eventType handler => on eventType handler
  | AOff eventType handler => off eventType handler
  | ESocketOpens i => socket_opens i
  | ESocketMessage frame => onMessage JSON_parse frame
  | ESocketCloses i code => socket_closes i code
  | ESocketError => onError
  | ETimerFires k => timer_fires k
  end.

(** A history: actions one after the other. *)
Fixpoint run (history : list Action) : M unit :=
  match history with
  | [] => ret tt
  | a :: rest => step a >> run rest
  end.

End Runs.

(** The actions that reset or move what an invariant tracks. *)
Definition is_open (a : Action) : bool :=
  match a with ESocketOpens _ => true | _ => false end.

Definition is_subscription_call (a : Action) : bool :=
  match a with ASubscribe _ | AUnsubscribe _ => true | _ => false end.

Definition is_registration (a : Action) : bool :=
  match a with AOn _ _ | AOff _ _ => true | _ => false end.

Definition may_connect (a : Action) : bool :=
  match a with AConnect | ETimerFires _ => true | _ => false end.

(** The effects of the typed [emit] that ends [handleMessage]. *)
Definition typed_effects (t : option string) (d : Data) (s : State)
  : list Effect :=
  match t with
  | Some t => emit_effects t d (listeners t s)
  | None => []
  end.


(** How one action relates the state before to the state after, with the
    effects it appended. *)
Definition step_spec (a : Action) (s s' : State) (es : list Effect) : Prop :=
  trace s' = trace s ++ es /\
  maxReconnectAttempts s' = maxReconnectAttempts s /\
  endpoint_valid s' = endpoint_valid s /\
  (if is_open a
   then reconnectAttempts s' = 0 /\ timers_set_of es = []
   else reconnectAttempts s' = reconnectAttempts s + length (timers_set_of es)) /\
  (reconnectAttempts s <= maxReconnectAttempts s ->
   reconnectAttempts s' <= maxReconnectAttempts s) /\
  (reconnectInterval s' = reconnectInterval s \/
   reconnectInterval s' = next_interval (reconnectInterval s)) /\
  Forall (fun d => d = reconnectInterval s) (timers_set_of es) /\
  (is_subscription_call a = false -> subscriptions s' = subscriptions s) /\
  (is_registration a = false -> messageHandlers s' = messageHandlers s) /\
  (may_connect a = false -> sockets_created_of es = []) /\
  length (sockets_created_of es) <= 1 /\
  length (sockets s') = length (sockets s) + length (sockets_created_of es).

(** The delays the manager can reach from the constructor's 5000 ms. *)
Definition backoff_values : list Q :=
  [5000; 7500; 11250; 16875; 50625 # 2; 30000]%Q.

(** A history, action by action, with everything it appended. *)
Inductive history_spec : list Action -> State -> State -> list Effect -> Prop :=
| history_nil s : history_spec [] s s []
| history_cons a rest s s1 s' es es' :
    step_spec a s s1 es ->
    history_spec rest s1 s' es' ->
    history_spec (a :: rest) s s' (es ++ es').

(** A history of a session: the connection is lost, the retry timer
    expires, the new socket opens, frames arrive, and the user reconnects by
    hand. *)
Definition sample_history : list Action :=
  [ ESocketCloses 0 1006; ETimerFires 0; ESocketOpens 1;
    ESocketMessage "null"; ESocketMessage "{type: ping"; ESocketError;
    ASend (OOther "hello"); ESocketCloses 1 1006; AConnect; ADisconnect ].

(** A computation that, whether it returns or throws, leaves every field of
    the manager, the sockets and the timers as they were, and whose effects
    are all passive. *)
Definition only_appends {A} (m : M A) : Prop :=
  forall s, exists r es, m s = (r, add_effects es s) /\ Forall passive es.

(** * Properties *)

(** ** Traces only grow *)

Lemma add_effects_nil s : add_effects [] s = s.
Proof. destruct s. unfold add_effects, set_trace. simpl. by rewrite app_nil_r. Qed.

Lemma add_effects_app a b s :
  add_effects b (add_effects a s) = add_effects (a ++ b) s.
Proof. unfold add_effects, set_trace. simpl. by rewrite app_assoc. Qed.

Lemma effects_of_add {A} (m : M A) s a es s0 :
  m s = (a, add_effects es s0) -> trace s0 = trace s -> effects_of m s = es.
Proof.
  intros Hm Ht. unfold effects_of, exec. rewrite Hm. simpl.
  rewrite Ht. by rewrite drop_app_length.
Qed.

Lemma bind_run {A B} (m : M A) (k : A -> M B) s a s' :
  m s = (Normal a, s') -> bind m k s = k a s'.
Proof. intros H. unfold bind. by rewrite H. Qed.

Lemma calls_of_app a b : calls_of (a ++ b) = calls_of a ++ calls_of b.
Proof. apply omap_app. Qed.

Lemma sends_of_app a b : sends_of (a ++ b) = sends_of a ++ sends_of b.
Proof. apply omap_app. Qed.

Lemma emit_effects_cons ev d h hs :
  emit_effects ev d (h :: hs) =
  (Called (hid h) ev d :: if hthrows h d then [Console LError ev] else [])
    ++ emit_effects ev d hs.
Proof. reflexivity. Qed.

Lemma calls_of_emit_effects ev d hs :
  calls_of (emit_effects ev d hs) = calls_to ev d hs.
Proof.
  induction hs as [|h hs IH]; [done|].
  rewrite emit_effects_cons, calls_of_app, IH.
  by destruct (hthrows h d).
Qed.

Lemma sends_of_emit_effects ev d hs : sends_of (emit_effects ev d hs) = [].
Proof.
  induction hs as [|h hs IH]; [done|].
  rewrite emit_effects_cons, sends_of_app, IH.
  by destruct (hthrows h d).
Qed.

(** ** [emit] *)

Lemma call_handlers_run ev d hs s :
  call_handlers ev d hs s = (Normal tt, add_effects (emit_effects ev d hs) s).
Proof.
  revert s. induction hs as [|h hs IH]; intros s.
  - simpl. by rewrite add_effects_nil.
  - simpl. unfold bind at 1, call_handler, try_catch, bind, effect, modify.
    destruct (hthrows h d); simpl; rewrite IH;
      unfold console_error, effect, modify, add_effects, set_trace; simpl;
      by rewrite <- ?app_assoc.
Qed.

Lemma emit_run ev d s :
  emit ev d s = (Normal tt, add_effects (emit_effects ev d (listeners ev s)) s).
Proof.
  unfold emit, listeners, bind, get.
  destruct (messageHandlers s !! ev) as [hs|]; simpl.
  - apply call_handlers_run.
  - by rewrite add_effects_nil.
Qed.

(** A listener that throws does not keep the later listeners of the same
    event from being called: [emit] calls each registered listener once, in
    registration order, and returns. *)
Lemma emit_calls_every_listener ev d s :
  outcome (emit ev d) s = Normal tt /\
  calls_of (effects_of (emit ev d) s) = calls_to ev d (listeners ev s).
Proof.
  split.
  - unfold outcome. by rewrite emit_run.
  - erewrite effects_of_add; [apply calls_of_emit_effects|apply emit_run|done].
Qed.

(** ** [send] *)

Lemma send_run f s :
  send f s =
  (Normal (serialisable f && send_result s), add_effects (send_effects f s) s).
Proof.
  unfold send, send_result, send_effects, bind, get.
  destruct (isConnected s) eqn:Hc, (ws s) as [i|] eqn:Hw;
    rewrite ?andb_false_r; try reflexivity.
  unfold try_catch, bind, stringify, ws_send, bind, get.
  destruct (serialisable f); [|reflexivity]. simpl.
  destruct (sockets s !! i) as [[]|] eqn:Hs; simpl; rewrite ?add_effects_nil;
    reflexivity.
Qed.

Lemma send_result_connected s i : connected_on s i -> send_result s = true.
Proof. intros (Hc & Hw & Hs). unfold send_result. by rewrite Hc, Hw, Hs. Qed.

Lemma send_effects_connected f s i :
  connected_on s i ->
  send_effects f s =
  if serialisable f then [Sent i f] else [Console LError "send failed"].
Proof. intros (Hc & Hw & Hs). unfold send_effects. by rewrite Hc, Hw, Hs. Qed.

Lemma send_result_disconnected s : isConnected s = false -> send_result s = false.
Proof. intros Hc. unfold send_result. by rewrite Hc. Qed.

Lemma send_effects_disconnected f s :
  isConnected s = false -> send_effects f s = [Console LWarn "not connected"].
Proof. intros Hc. unfold send_effects. by rewrite Hc. Qed.

(** [ws.send] does not throw on the socket the manager holds. *)
Lemma send_result_true s :
  send_result s = true <->
  isConnected s = true /\
  exists k, ws s = Some k /\ sockets s !! k <> Some CONNECTING.
Proof.
  unfold send_result. split.
  - destruct (isConnected s); [|done]. destruct (ws s) as [k|]; [|done].
    intros H. split; [done|]. exists k. split; [done|].
    by destruct (sockets s !! k) as [[]|].
  - intros (-> & k & -> & Hk). by destruct (sockets s !! k) as [[]|].
Qed.

Lemma sends_of_send_effects_unconnected f s :
  (forall k, ~ connected_on s k) -> sends_of (send_effects f s) = [].
Proof.
  intros Hno. unfold send_effects.
  destruct (isConnected s) eqn:Hc; [|done].
  destruct (ws s) as [k|] eqn:Hw; [|done].
  destruct (serialisable f); [|done].
  destruct (sockets s !! k) as [[]|] eqn:Hs; try done.
  by destruct (Hno k).
Qed.

(** ** Dispatch of a heartbeat *)

Lemma is_case_eq t : is_case (Some t) t = true.
Proof. unfold is_case. by rewrite bool_decide_eq_true. Qed.

Lemma is_case_ne t n : t <> n -> is_case (Some t) n = false.
Proof. intros H. unfold is_case. rewrite bool_decide_eq_false. congruence. Qed.

Ltac switch_on H :=
  unfold handleMessage; rewrite H;
  repeat first [ rewrite is_case_eq | rewrite is_case_ne by discriminate ].

Lemma handleMessage_ping_run s m :
  m_type m = Some "ping" ->
  handleMessage (JMsg m) s =
  (Normal tt,
   add_effects (send_effects OPong s
                ++ emit_effects "message" (DMessage m) (listeners "message" s)
                ++ emit_effects "ping" (DMessage m) (listeners "ping" s)) s).
Proof.
  intros Ht. switch_on Ht.
  unfold handlePingMessage, emit_type.
  erewrite bind_run; [|erewrite bind_run; [reflexivity|apply send_run]].
  erewrite bind_run; [|apply emit_run].
  rewrite emit_run. by rewrite !add_effects_app, <- ?app_assoc.
Qed.

(** C1, as stated, fails: in a connected session with a wildcard listener
    and a ["ping"] listener, the dispatch of a ping calls both of them. *)
Lemma ping_forwarded_counterexample :
  let es := effects_of (handleMessage (JMsg ping_message)) session in
  ~ (no_listener_called "message" es /\ no_listener_called "ping" es /\
     sends_of es = [(0, OPong)]).
Proof.
  intros es (Hm & _ & _). apply (Hm 1 (DMessage ping_message)).
  vm_compute. left.
Qed.

(** C1, amended: the dispatch of a ping returns normally.  When the
    manager is connected on an open socket its first effect is the one pong
    it sends on that socket; in every other state it sends none (when it is
    not connected it writes a console warning instead).  Whatever the
    attempt to send leaves in the trace comes first: after that, and only
    after that, the dispatch calls every wildcard listener and then every
    ["ping"] listener, each once and in registration order, reporting a
    listener that throws on the console before it calls the next one. *)
Theorem ping_dispatch s m :
  m_type m = Some "ping" ->
  let es := effects_of (handleMessage (JMsg m)) s in
  let to_listeners :=
    emit_effects "message" (DMessage m) (listeners "message" s) ++
    emit_effects "ping" (DMessage m) (listeners "ping" s) in
  outcome (handleMessage (JMsg m)) s = Normal tt /\
  trace (exec (handleMessage (JMsg m)) s) = trace s ++ es /\
  exec (handleMessage (JMsg m)) s = add_effects es s /\
  (forall i, connected_on s i ->
     es = Sent i OPong :: to_listeners /\ sends_of es = [(i, OPong)]) /\
  (isConnected s = false ->
     es = Console LWarn "not connected" :: to_listeners /\ sends_of es = []) /\
  ((forall k, ~ connected_on s k) -> sends_of es = []) /\
  (exists pre,
     es = pre ++ to_listeners /\ calls_of pre = [] /\
     sends_of pre = sends_of es) /\
  sends_of to_listeners = [] /\
  calls_of to_listeners = calls_of es /\
  calls_of es =
    calls_to "message" (DMessage m) (listeners "message" s) ++
    calls_to "ping" (DMessage m) (listeners "ping" s).
Proof.
  intros Ht es to_listeners.
  pose proof (handleMessage_ping_run s m Ht) as Hrun.
  assert (Hes : es = send_effects OPong s ++ to_listeners)
    by (unfold es; by erewrite effects_of_add).
  assert (Hsends : sends_of to_listeners = []).
  { unfold to_listeners. by rewrite sends_of_app, !sends_of_emit_effects. }
  assert (Hcalls : calls_of to_listeners =
            calls_to "message" (DMessage m) (listeners "message" s) ++
            calls_to "ping" (DMessage m) (listeners "ping" s)).
  { unfold to_listeners. by rewrite calls_of_app, !calls_of_emit_effects. }
  assert (Hpong : calls_of (send_effects OPong s) = []).
  { unfold send_effects. destruct (isConnected s), (ws s) as [i|]; try done.
    simpl. by destruct (sockets s !! i) as [[]|]. }
  unfold outcome, exec. rewrite Hrun, Hes. simpl.
  split; [done|]. split; [done|]. split; [done|].
  split; [|split; [|split; [|split; [|split; [|split]]]]].
  - intros i Hi. rewrite (send_effects_connected _ _ i Hi). simpl.
    by rewrite Hsends.
  - intros Hc. rewrite send_effects_disconnected by done. simpl.
    by rewrite Hsends.
  - intros Hno. rewrite sends_of_app, Hsends.
    by rewrite sends_of_send_effects_unconnected.
  - exists (send_effects OPong s). split; [done|]. split; [exact Hpong|].
    by rewrite sends_of_app, Hsends, app_nil_r.
  - exact Hsends.
  - by rewrite calls_of_app, Hpong.
  - by rewrite calls_of_app, Hpong.
Qed.

Lemma ping_dispatch_witness :
  m_type ping_message = Some "ping" /\
  effects_of (handleMessage (JMsg ping_message)) session =
  [ Sent 0 OPong;
    Called 1 "message" (DMessage ping_message);
    Called 2 "ping" (DMessage ping_message) ].
Proof.
  split; [reflexivity|].
  assert (Hc : connected_on session 0) by (vm_compute; auto).
  exact (proj1 (proj1 (proj2 (proj2 (proj2
           (ping_dispatch session ping_message eq_refl)))) 0 Hc)).
Defined.

(** ** The subscription set *)

Lemma set_add_elem x l : x ∈ l -> set_add x l = l.
Proof. intros H. unfold set_add. by rewrite bool_decide_eq_true_2. Qed.

Lemma set_add_fresh x l : x ∉ l -> set_add x l = l ++ [x].
Proof. intros H. unfold set_add. by rewrite bool_decide_eq_false_2. Qed.

Lemma elem_of_set_add x y l : y ∈ set_add x l <-> y = x \/ y ∈ l.
Proof.
  unfold set_add. case_bool_decide.
  - split; [auto|]. by intros [->|].
  - rewrite elem_of_app, list_elem_of_singleton. tauto.
Qed.

Lemma elem_of_set_delete x y l : y ∈ set_delete x l <-> y <> x /\ y ∈ l.
Proof. unfold set_delete. by rewrite list_elem_of_filter. Qed.

Lemma set_subscriptions_id s : set_subscriptions (subscriptions s) s = s.
Proof. by destruct s. Qed.

Lemma subscribe_run t s :
  subscribe t s =
  (Normal (send_result s),
   let s' := add_effects (send_effects (OSubscribe t) s) s in
   if send_result s
   then set_subscriptions (set_add t (subscriptions s)) s'
   else s').
Proof.
  unfold subscribe. erewrite bind_run by apply send_run.
  by destruct (send_result s).
Qed.

Lemma unsubscribe_run t s :
  unsubscribe t s =
  (Normal (send_result s),
   let s' := add_effects (send_effects (OUnsubscribe t) s) s in
   if send_result s
   then set_subscriptions (set_delete t (subscriptions s)) s'
   else s').
Proof.
  unfold unsubscribe. erewrite bind_run by apply send_run.
  by destruct (send_result s).
Qed.

(** On an open connection [resubscribe] sends one request per member and
    leaves the set as it is. *)
Lemma subscribe_each_run topics s i :
  connected_on s i ->
  (forall t, t ∈ topics -> t ∈ subscriptions s) ->
  subscribe_each topics s =
  (Normal tt, add_effects (map (fun t => Sent i (OSubscribe t)) topics) s).
Proof.
  revert s. induction topics as [|t rest IH]; intros s Hc Hin.
  - simpl. by rewrite add_effects_nil.
  - simpl. erewrite bind_run by apply subscribe_run.
    rewrite (send_result_connected s i Hc), (send_effects_connected _ s i Hc).
    simpl. rewrite set_add_elem by (apply Hin; left).
    change (subscribe_each rest (add_effects [Sent i (OSubscribe t)] s) =
            (Normal tt, add_effects (Sent i (OSubscribe t) ::
               map (fun t0 => Sent i (OSubscribe t0)) rest) s)).
    rewrite IH; [by rewrite add_effects_app|done|].
    intros t' Ht'. apply Hin. by right.
Qed.

Lemma resubscribe_run s i :
  connected_on s i ->
  resubscribe s =
  (Normal tt,
   add_effects (map (fun t => Sent i (OSubscribe t)) (subscriptions s)) s).
Proof.
  intros Hc. unfold resubscribe. erewrite bind_run by reflexivity.
  by apply subscribe_each_run.
Qed.

Lemma sends_of_subscribes i (topics : list string) :
  sends_of (map (fun t => Sent i (OSubscribe t)) topics) =
  map (fun t => (i, OSubscribe t)) topics.
Proof. induction topics as [|t topics IH]; [done|]. simpl. by f_equal. Qed.

(** ** Big-step summaries of the lifecycle methods *)

Lemma effects_of_trace {A} (m : M A) s es :
  trace (exec m s) = trace s ++ es -> effects_of m s = es.
Proof. intros H. unfold effects_of. rewrite H. by rewrite drop_app_length. Qed.

Lemma effect_run e s : effect e s = (Normal tt, add_effects [e] s).
Proof. reflexivity. Qed.

Lemma scheduleReconnect_run s :
  scheduleReconnect s = (Normal tt, after_scheduleReconnect s).
Proof.
  unfold scheduleReconnect, after_scheduleReconnect.
  erewrite bind_run by reflexivity.
  destruct (Nat.ltb _ _); [reflexivity|].
  erewrite bind_run by apply effect_run.
  rewrite emit_run. unfold gave_up_effects.
  by rewrite add_effects_app.
Qed.

Lemma connect_run s : connect s = (Normal tt, after_connect s).
Proof.
  unfold connect, after_connect, try_catch.
  destruct (endpoint_valid s) eqn:Hv.
  - unfold bind, new_WebSocket, bind, get. by rewrite Hv.
  - replace ((let* i := new_WebSocket in modify (set_ws (Some i))) s)
      with (@Thrown unit "SyntaxError", s)
      by (unfold bind, new_WebSocket, bind, get; by rewrite Hv).
    erewrite bind_run by apply effect_run. apply scheduleReconnect_run.
Qed.

Lemma after_connect_valid s :
  endpoint_valid s = true ->
  after_connect s =
  set_ws (Some (length (sockets s)))
    (add_effects [NewSocket (length (sockets s))]
       (set_sockets (sockets s ++ [CONNECTING]) s)).
Proof. intros H. unfold after_connect. by rewrite H. Qed.

Lemma onClose_run code s : onClose code s = (Normal tt, after_onClose code s).
Proof.
  unfold onClose, after_onClose. erewrite bind_run by reflexivity.
  erewrite bind_run by apply emit_run.
  case_bool_decide; [apply scheduleReconnect_run|reflexivity].
Qed.

Lemma disconnect_run s : disconnect s = (Normal tt, after_disconnect s).
Proof.
  unfold disconnect, after_disconnect, bind, get.
  destruct (ws s) as [i|]; [|reflexivity].
  unfold ws_close, bind, get, effect, modify.
  by destruct (sockets s !! i) as [[]|].
Qed.

Lemma onOpen_run event i s :
  ws s = Some i -> sockets s !! i = Some OPEN ->
  onOpen event s = (Normal tt, after_onOpen event i s).
Proof.
  intros Hw Hs. unfold onOpen, after_onOpen.
  do 2 (erewrite bind_run by reflexivity).
  erewrite bind_run by (by apply (resubscribe_run _ i)).
  rewrite emit_run. by rewrite add_effects_app.
Qed.

Lemma after_scheduleReconnect_trace s :
  trace (after_scheduleReconnect s) = trace s ++ schedule_effects s.
Proof.
  unfold after_scheduleReconnect, schedule_effects.
  by destruct (Nat.ltb _ _).
Qed.

Lemma after_scheduleReconnect_frame s :
  let s' := after_scheduleReconnect s in
  ws s' = ws s /\ isConnected s' = isConnected s /\
  subscriptions s' = subscriptions s /\ sockets s' = sockets s /\
  endpoint_valid s' = endpoint_valid s /\
  messageHandlers s' = messageHandlers s /\
  maxReconnectAttempts s' = maxReconnectAttempts s.
Proof.
  unfold after_scheduleReconnect. by destruct (Nat.ltb _ _).
Qed.

Lemma sends_of_schedule_effects s : sends_of (schedule_effects s) = [].
Proof.
  unfold schedule_effects, gave_up_effects.
  destruct (Nat.ltb _ _); [done|].
  simpl. apply sends_of_emit_effects.
Qed.

Lemma after_onClose_trace code s :
  trace (after_onClose code s) = trace s ++ onClose_effects code s.
Proof.
  unfold after_onClose, onClose_effects. case_bool_decide.
  - rewrite after_scheduleReconnect_trace. simpl. by rewrite <- app_assoc.
  - simpl. by rewrite app_nil_r.
Qed.

Lemma after_onClose_frame code s :
  let s' := after_onClose code s in
  ws s' = ws s /\ isConnected s' = false /\
  subscriptions s' = subscriptions s /\ sockets s' = sockets s /\
  endpoint_valid s' = endpoint_valid s /\
  messageHandlers s' = messageHandlers s /\
  maxReconnectAttempts s' = maxReconnectAttempts s.
Proof.
  unfold after_onClose. case_bool_decide; [|done].
  match goal with |- context [after_scheduleReconnect ?x] =>
    pose proof (after_scheduleReconnect_frame x) as H' end.
  simpl in H'. naive_solver.
Qed.

Lemma sends_of_onClose_effects code s : sends_of (onClose_effects code s) = [].
Proof.
  unfold onClose_effects.
  rewrite sends_of_app, sends_of_emit_effects.
  case_bool_decide; [apply sends_of_schedule_effects|done].
Qed.

(** ** Subscriptions across a reconnection *)

Lemma subscribe_frame t s :
  endpoint_valid (exec (subscribe t) s) = endpoint_valid s /\
  sockets (exec (subscribe t) s) = sockets s.
Proof. unfold exec. rewrite subscribe_run. simpl. by destruct (send_result s). Qed.

Lemma unsubscribe_frame t s :
  endpoint_valid (exec (unsubscribe t) s) = endpoint_valid s /\
  sockets (exec (unsubscribe t) s) = sockets s.
Proof. unfold exec. rewrite unsubscribe_run. simpl. by destruct (send_result s). Qed.

Lemma calls_endpoint_valid cs s :
  endpoint_valid (exec (calls cs) s) = endpoint_valid s.
Proof.
  revert s. induction cs as [|[t|t] cs IH]; intros s; [done| |].
  - pose proof (subscribe_frame t s) as [Hv _]. unfold exec in *. simpl.
    erewrite bind_run by apply subscribe_run.
    rewrite subscribe_run in Hv. simpl in Hv. by rewrite IH.
  - pose proof (unsubscribe_frame t s) as [Hv _]. unfold exec in *. simpl.
    erewrite bind_run by apply unsubscribe_run.
    rewrite unsubscribe_run in Hv. simpl in Hv. by rewrite IH.
Qed.

Lemma reconnect_run i code s :
  endpoint_valid s = true ->
  let j := length (sockets s) in
  exists s' es,
    reconnect i code s = (Normal tt, s') /\
    trace s' = trace s ++ es /\
    sends_of es = map (fun t => (j, OSubscribe t)) (subscriptions s) /\
    subscriptions s' = subscriptions s /\
    connected_on s' j /\ reconnectAttempts s' = 0.
Proof.
  intros Hv j. unfold reconnect, socket_closes.
  erewrite bind_run; [|erewrite bind_run by reflexivity; apply onClose_run].
  set (s0 := set_sockets (<[i:=CLOSED]> (sockets s)) s).
  destruct (after_onClose_frame code s0) as (Hw & Hc & Hsub & Hsock & Hval & Hh & _).
  pose proof (after_onClose_trace code s0) as Htr.
  set (s1 := after_onClose code s0) in *.
  assert (Hlen : length (sockets s1) = j)
    by (rewrite Hsock; unfold s0; simpl; by rewrite length_insert).
  erewrite bind_run by apply connect_run.
  unfold after_connect. rewrite Hval. unfold s0 at 1. simpl. rewrite Hv, Hlen.
  set (s2 := set_ws (Some j) _).
  unfold current_socket_opens. erewrite bind_run by reflexivity.
  change (ws s2) with (Some j). unfold socket_opens.
  erewrite bind_run by reflexivity.
  set (s3 := set_sockets _ s2).
  assert (Hopen : sockets s3 !! j = Some OPEN).
  { unfold s3, s2. simpl. apply list_lookup_insert_eq.
    rewrite length_app, Hlen. simpl. lia. }
  rewrite (onOpen_run DOpen j s3 eq_refl Hopen).
  eexists _, _. split; [reflexivity|].
  split; [|split; [|split; [|split]]].
  - unfold after_onOpen, s3, s2. simpl. rewrite Htr. unfold s0 at 1. simpl.
    rewrite <- !app_assoc. reflexivity.
  - rewrite !sends_of_app, sends_of_onClose_effects, sends_of_emit_effects.
    simpl. rewrite app_nil_r, Hsub. unfold s0. simpl.
    apply sends_of_subscribes.
  - unfold after_onOpen, s3, s2. simpl. rewrite Hsub. reflexivity.
  - unfold connected_on, after_onOpen. simpl. done.
  - reflexivity.
Qed.

(** C2, as stated, fails: [subscribe] on a manager that is not connected
    does not add the topic, and no request is sent once the connection is
    up. *)
Lemma subscribe_offline_counterexample :
  let s := constructor None true in
  ~ ("M-01" ∈ subscriptions (exec (subscribe "M-01") s)) /\
  sends_of (trace (exec (subscribe "M-01" >> connect >> current_socket_opens) s))
  = [].
Proof. split; [|reflexivity]. vm_compute. apply not_elem_of_nil. Qed.

(** C2, amended: [subscribe(topic)] adds the topic exactly when [send]
    returns [true], that is when the manager is connected and [ws.send] on
    the socket it holds does not throw; it returns what [send] returned and
    defers nothing.  The request is transmitted exactly when the manager is
    connected on an open socket: on a socket that is already closing or
    closed [send] still returns [true] and the topic is added although
    nothing is transmitted; when the manager is not connected, holds no
    socket, or its socket is still connecting, [subscribe] returns [false],
    transmits nothing and leaves the set as it is.  After any sequence of
    [subscribe]/[unsubscribe] calls, a forced disconnect followed by a
    reconnection sends one subscribe request per topic of the set, in
    insertion order, on the new socket, and does not change the set. *)
Theorem subscriptions_reasserted_on_reconnect cs i code t s :
  endpoint_valid s = true ->
  (exists b,
     outcome (subscribe t) s = Normal b /\
     subscriptions (exec (subscribe t) s) =
       (if b then set_add t (subscriptions s) else subscriptions s) /\
     (b = true <->
      isConnected s = true /\
      exists k, ws s = Some k /\ sockets s !! k <> Some CONNECTING)) /\
  (forall k, connected_on s k ->
     outcome (subscribe t) s = Normal true /\
     subscriptions (exec (subscribe t) s) = set_add t (subscriptions s) /\
     sends_of (effects_of (subscribe t) s) = [(k, OSubscribe t)]) /\
  ((forall k, ~ connected_on s k) ->
     sends_of (effects_of (subscribe t) s) = []) /\
  (forall k, isConnected s = true -> ws s = Some k ->
     sockets s !! k = Some CLOSING \/ sockets s !! k = Some CLOSED ->
     outcome (subscribe t) s = Normal true /\
     subscriptions (exec (subscribe t) s) = set_add t (subscriptions s) /\
     effects_of (subscribe t) s = []) /\
  (forall k, isConnected s = true -> ws s = Some k ->
     sockets s !! k = Some CONNECTING ->
     outcome (subscribe t) s = Normal false /\
     subscriptions (exec (subscribe t) s) = subscriptions s /\
     effects_of (subscribe t) s = [Console LError "send failed"]) /\
  (isConnected s = false ->
     outcome (subscribe t) s = Normal false /\
     subscriptions (exec (subscribe t) s) = subscriptions s /\
     sends_of (effects_of (subscribe t) s) = []) /\
  let s1 := exec (calls cs) s in
  sends_of (effects_of (reconnect i code) s1) =
    map (fun t => (length (sockets s1), OSubscribe t)) (subscriptions s1) /\
  subscriptions (exec (reconnect i code) s1) = subscriptions s1.
Proof.
  intros Hv.
  assert (Heff : effects_of (subscribe t) s = send_effects (OSubscribe t) s).
  { apply effects_of_trace. unfold exec. rewrite subscribe_run. simpl.
    by destruct (send_result s). }
  split; [|split; [|split; [|split; [|split; [|split]]]]].
  - exists (send_result s). unfold outcome, exec. rewrite subscribe_run. simpl.
    split; [done|]. split; [by destruct (send_result s)|].
    apply send_result_true.
  - intros k Hk. pose proof (subscribe_run t s) as Hrun.
    rewrite (send_result_connected s k Hk), (send_effects_connected _ s k Hk) in Hrun.
    rewrite (effects_of_trace _ _ [Sent k (OSubscribe t)])
      by (unfold exec; by rewrite Hrun).
    unfold outcome, exec. by rewrite Hrun.
  - intros Hno. rewrite Heff. by apply sends_of_send_effects_unconnected.
  - intros k Hc Hw Hk. rewrite Heff. unfold outcome, exec.
    rewrite subscribe_run. unfold send_result, send_effects.
    rewrite Hc, Hw. by destruct Hk as [-> | ->].
  - intros k Hc Hw Hk. rewrite Heff. unfold outcome, exec.
    rewrite subscribe_run. unfold send_result, send_effects.
    by rewrite Hc, Hw, Hk.
  - intros Hc. pose proof (subscribe_run t s) as Hrun.
    rewrite (send_result_disconnected s Hc), (send_effects_disconnected _ s Hc) in Hrun.
    rewrite (effects_of_trace _ _ [Console LWarn "not connected"])
      by (unfold exec; by rewrite Hrun).
    unfold outcome, exec. by rewrite Hrun.
  - intros s1.
    destruct (reconnect_run i code s1) as (s' & es & Hrun & Htr & Hsends & Hsub & _).
    { unfold s1. by rewrite calls_endpoint_valid. }
    split.
    + erewrite effects_of_trace; [exact Hsends|]. unfold exec. by rewrite Hrun.
    + unfold exec. by rewrite Hrun.
Qed.

Lemma subscriptions_reasserted_on_reconnect_witness :
  endpoint_valid session = true /\
  sends_of (effects_of (reconnect 0 1006)
              (exec (calls [CSubscribe "M-01"; CSubscribe "M-02";
                            CUnsubscribe "M-01"]) session))
  = [(1, OSubscribe "M-02")].
Proof.
  split; [reflexivity|].
  exact (proj1 (proj2 (proj2 (proj2 (proj2 (proj2 (proj2
           (subscriptions_reasserted_on_reconnect
              [CSubscribe "M-01"; CSubscribe "M-02"; CUnsubscribe "M-01"]
              0 1006 "M-03" session eq_refl)))))))).
Defined.

(** ** Opening a connection *)

(** Whatever the state of the socket, [resubscribe] returns and touches
    nothing but the trace (and, trivially, the set). *)
Lemma subscribe_each_frame topics s :
  exists s',
    subscribe_each topics s = (Normal tt, s') /\
    isConnected s' = isConnected s /\
    reconnectAttempts s' = reconnectAttempts s /\
    reconnectInterval s' = reconnectInterval s /\
    messageHandlers s' = messageHandlers s /\
    timers s' = timers s.
Proof.
  revert s. induction topics as [|t rest IH]; intros s.
  - by exists s.
  - simpl. erewrite bind_run by apply subscribe_run.
    match goal with |- context [subscribe_each rest ?x] =>
      destruct (IH x) as (s' & Hrun & Hc & Ha & Hi & Hh & Ht) end.
    exists s'. split; [exact Hrun|].
    rewrite Hc, Ha, Hi, Hh, Ht. simpl. by destruct (send_result s).
Qed.

Lemma resubscribe_frame s :
  exists s',
    resubscribe s = (Normal tt, s') /\
    isConnected s' = isConnected s /\
    reconnectAttempts s' = reconnectAttempts s /\
    reconnectInterval s' = reconnectInterval s /\
    messageHandlers s' = messageHandlers s /\
    timers s' = timers s.
Proof.
  unfold resubscribe. erewrite bind_run by reflexivity.
  apply subscribe_each_frame.
Qed.

(** C3, as stated, fails: after one scheduled retry the delay is 7500 ms,
    and the open of the new connection leaves it there. *)
Lemma delay_not_reset_counterexample :
  let s := exec (connect >> socket_opens 0 >> reconnect 0 1006)
                (constructor None true) in
  ~ (reconnectAttempts s = 0 /\
     (reconnectInterval s == initial_reconnectInterval)%Q).
Proof. intros s [_ H]. vm_compute in H. discriminate. Qed.

(** C3, amended: after every connection open the reconnect attempt counter
    is 0 and the manager is connected; the reconnect delay is not reset, it
    keeps the value it had before the open. *)
Theorem onOpen_resets_attempts event s :
  outcome (onOpen event) s = Normal tt /\
  reconnectAttempts (exec (onOpen event) s) = 0 /\
  isConnected (exec (onOpen event) s) = true /\
  reconnectInterval (exec (onOpen event) s) = reconnectInterval s.
Proof.
  unfold outcome, exec, onOpen.
  do 2 (erewrite bind_run by reflexivity).
  destruct (resubscribe_frame (set_reconnectAttempts 0 (set_isConnected true s)))
    as (s' & Hrun & Hc & Ha & Hi & _).
  erewrite bind_run by exact Hrun.
  rewrite emit_run. simpl. by rewrite Hc, Ha, Hi.
Qed.

(** ** [disconnect] and pending timers *)

(** C4, as stated, fails: [disconnect()] leaves the pending timer in place,
    and when the timer expires a new connection is opened. *)
Lemma disconnect_keeps_timer_counterexample :
  let s := exec disconnect lost_session in
  ~ (timers s = [] /\ sockets_created_of (effects_of (timer_fires 0) s) = []).
Proof. intros s [H _]. vm_compute in H. discriminate. Qed.

(** C4, amended: [disconnect()] calls [close()] on the current socket, if
    there is one, drops it and clears the connected flag; it does not touch
    pending reconnect timers, so a timer that was pending still expires and
    its [connect()] runs: it opens a new connection, or, when constructing
    the socket throws, reports the failure and goes through
    [scheduleReconnect]. *)
Theorem disconnect_keeps_timers k s :
  k < length (timers s) ->
  let s' := exec disconnect s in
  outcome disconnect s = Normal tt /\
  ws s' = None /\ isConnected s' = false /\
  timers s' = timers s /\
  (forall i, ws s = Some i ->
     effects_of disconnect s = [CloseSocket i] /\
     length (sockets s') = length (sockets s) /\
     (forall j, j <> i -> sockets s' !! j = sockets s !! j) /\
     (sockets s !! i = Some CONNECTING \/ sockets s !! i = Some OPEN ->
        sockets s' !! i = Some CLOSING) /\
     (sockets s !! i = Some CLOSING \/ sockets s !! i = Some CLOSED ->
        sockets s' !! i = sockets s !! i)) /\
  (ws s = None -> effects_of disconnect s = [] /\ sockets s' = sockets s) /\
  (endpoint_valid s = true ->
     effects_of (timer_fires k) s' = [NewSocket (length (sockets s))] /\
     sockets_created_of (effects_of (timer_fires k) s') = [length (sockets s)] /\
     ws (exec (timer_fires k) s') = Some (length (sockets s))) /\
  (endpoint_valid s = false ->
     effects_of (timer_fires k) s' =
       Console LError "connect failed" :: schedule_effects s /\
     sockets (exec (timer_fires k) s') = sockets s' /\
     ws (exec (timer_fires k) s') = None).
Proof.
  intros Hk s'.
  assert (Hs' : s' = after_disconnect s).
  { unfold s', exec. by rewrite disconnect_run. }
  assert (Hframe : endpoint_valid (after_disconnect s) = endpoint_valid s /\
                   length (sockets (after_disconnect s)) = length (sockets s) /\
                   timers (after_disconnect s) = timers s /\
                   ws (after_disconnect s) = None /\
                   reconnectAttempts (after_disconnect s) = reconnectAttempts s /\
                   maxReconnectAttempts (after_disconnect s) = maxReconnectAttempts s /\
                   reconnectInterval (after_disconnect s) = reconnectInterval s /\
                   messageHandlers (after_disconnect s) = messageHandlers s).
  { unfold after_disconnect. destruct (ws s) as [i|] eqn:Hw; simpl; [|done].
    destruct (sockets s !! i) as [[]|]; simpl; rewrite ?length_insert; done. }
  destruct Hframe as (Hv' & Hlen & Ht & Hw & Hra & Hmax & Hri & Hmh).
  assert (Hrun : timer_fires k (after_disconnect s) =
                 (Normal tt,
                  after_connect (set_timers (delete k (timers (after_disconnect s)))
                                            (after_disconnect s)))).
  { unfold timer_fires. erewrite bind_run by reflexivity. apply connect_run. }
  split; [unfold outcome; by rewrite disconnect_run|].
  rewrite Hs'. split; [done|]. split; [by unfold after_disconnect|].
  split; [done|]. split; [|split; [|split]].
  - intros i Hi.
    split.
    { apply effects_of_trace. unfold exec. rewrite disconnect_run.
      unfold after_disconnect. rewrite Hi. simpl.
      by destruct (sockets s !! i) as [[]|]. }
    split; [done|].
    unfold after_disconnect. rewrite Hi. simpl.
    split; [|split].
    + intros j Hj.
      destruct (sockets s !! i) as [[]|]; simpl; try done;
        by rewrite list_lookup_insert_ne.
    + assert (Hlt : sockets s !! i <> None -> i < length (sockets s)).
      { intros H. by apply lookup_lt_is_Some, not_eq_None_Some. }
      intros [H|H]; rewrite H; simpl;
        apply list_lookup_insert_eq; apply Hlt; by rewrite H.
    + by intros [H|H]; rewrite H.
  - intros Hnone. split.
    + apply effects_of_trace. unfold exec. rewrite disconnect_run.
      unfold after_disconnect. rewrite Hnone. simpl. by rewrite app_nil_r.
    + unfold after_disconnect. by rewrite Hnone.
  - intros Hv. rewrite after_connect_valid in Hrun by (rewrite <- Hv, <- Hv'; reflexivity).
    change (sockets (set_timers _ ?x)) with (sockets x) in Hrun.
    rewrite Hlen in Hrun.
    rewrite (effects_of_trace _ _ [NewSocket (length (sockets s))])
      by (unfold exec; by rewrite Hrun).
    unfold exec. rewrite Hrun. simpl. repeat split; done.
  - intros Hv.
    set (s0 := add_effects [Console LError "connect failed"]
                 (set_timers (delete k (timers (after_disconnect s)))
                             (after_disconnect s))).
    assert (Hrun' : timer_fires k (after_disconnect s) =
                    (Normal tt, after_scheduleReconnect s0)).
    { rewrite Hrun. unfold after_connect.
      change (endpoint_valid (set_timers _ ?x)) with (endpoint_valid x).
      by rewrite Hv', Hv. }
    assert (Hsched : schedule_effects s0 = schedule_effects s).
    { unfold schedule_effects, gave_up_effects, listeners.
      change (reconnectAttempts s0) with (reconnectAttempts (after_disconnect s)).
      change (maxReconnectAttempts s0) with (maxReconnectAttempts (after_disconnect s)).
      change (reconnectInterval s0) with (reconnectInterval (after_disconnect s)).
      change (messageHandlers s0) with (messageHandlers (after_disconnect s)).
      by rewrite Hra, Hmax, Hri, Hmh. }
    destruct (after_scheduleReconnect_frame s0) as (Hw0 & _ & _ & Hsock0 & _).
    split; [|split].
    + apply effects_of_trace. unfold exec. rewrite Hrun'. simpl.
      rewrite after_scheduleReconnect_trace, Hsched. unfold s0. simpl.
      by rewrite <- app_assoc.
    + unfold exec. rewrite Hrun'. simpl. by rewrite Hsock0.
    + unfold exec. rewrite Hrun'. simpl. by rewrite Hw0.
Qed.

Lemma disconnect_keeps_timers_witness :
  0 < length (timers lost_session) /\
  timers (exec disconnect lost_session) = [5000%Q] /\
  effects_of disconnect lost_session = [CloseSocket 0] /\
  ws (exec (timer_fires 0) (exec disconnect lost_session)) = Some 1.
Proof.
  assert (Hk : 0 < length (timers lost_session)) by (vm_compute; lia).
  pose proof (disconnect_keeps_timers 0 lost_session Hk) as H.
  split; [exact Hk|].
  split; [exact (proj1 (proj2 (proj2 (proj2 H))))|].
  split.
  - exact (proj1 (proj1 (proj2 (proj2 (proj2 (proj2 H)))) 0 eq_refl)).
  - exact (proj2 (proj2 (proj1 (proj2 (proj2 (proj2 (proj2 (proj2 (proj2 H))))))
                           eq_refl))).
Defined.

(** ** [connect] *)

(** C5, as stated, fails: a second [connect()] is not a no-op, it opens a
    second connection while the first is still in flight. *)
Lemma connect_twice_counterexample :
  let s := exec connect (constructor None true) in
  ~ (exec connect s = s /\ in_flight (exec connect s) <= 1).
Proof. intros s [_ H]. vm_compute in H. lia. Qed.

Lemma in_flight_app s r :
  length (filter (fun x => x = CONNECTING) (sockets s ++ [r])) =
  in_flight s + (if decide (r = CONNECTING) then 1 else 0).
Proof.
  unfold in_flight. rewrite filter_app, length_app. f_equal.
  rewrite filter_cons, filter_nil. by destruct (decide _).
Qed.

(** C5, amended: [connect()] checks no state.  Every call on a valid
    endpoint, whatever the connection state, opens one new connection and
    makes it the manager's current socket, so the number of attempts in
    flight grows by one; the connected flag, the attempt counter and the
    subscriptions are left as they are. *)
Theorem connect_always_opens s :
  endpoint_valid s = true ->
  let s' := exec connect s in
  outcome connect s = Normal tt /\
  sockets_created_of (effects_of connect s) = [length (sockets s)] /\
  ws s' = Some (length (sockets s)) /\
  sockets s' = sockets s ++ [CONNECTING] /\
  in_flight s' = S (in_flight s) /\
  isConnected s' = isConnected s /\
  reconnectAttempts s' = reconnectAttempts s /\
  subscriptions s' = subscriptions s.
Proof.
  intros Hv s'. unfold outcome, s', exec.
  rewrite (effects_of_trace _ _ [NewSocket (length (sockets s))])
    by (unfold exec; rewrite connect_run, after_connect_valid by done; done).
  rewrite connect_run, after_connect_valid by done. simpl.
  repeat split.
  unfold in_flight at 1. simpl. rewrite in_flight_app. simpl. lia.
Qed.

Lemma connect_always_opens_witness :
  endpoint_valid session = true /\
  ws (exec connect session) = Some 1.
Proof.
  split; [reflexivity|]. apply (connect_always_opens session eq_refl).
Defined.

(** ** [unsubscribe] *)

(** C6, as stated, fails: on a manager that is not connected
    [unsubscribe] leaves the topic in the set. *)
Lemma unsubscribe_offline_counterexample :
  ~ ~ ("M-01" ∈ subscriptions (exec (unsubscribe "M-01") offline_subscribed)).
Proof. intros H. apply H. vm_compute. left. Qed.

(** C6, amended: [unsubscribe(topic)] removes the topic exactly when [send]
    returns [true], that is when the manager is connected and [ws.send] on
    the socket it holds does not throw; it never throws and returns what
    [send] returned.  The request is transmitted exactly when the manager is
    connected on an open socket: on a socket that is already closing or
    closed [send] still returns [true] and the topic is removed although
    nothing is transmitted; when the manager is not connected, holds no
    socket, or its socket is still connecting, [unsubscribe] returns
    [false], transmits nothing and leaves the topic in the set. *)
Theorem unsubscribe_removes_when_sent t s :
  (exists b,
     outcome (unsubscribe t) s = Normal b /\
     subscriptions (exec (unsubscribe t) s) =
       (if b then set_delete t (subscriptions s) else subscriptions s) /\
     (b = true <->
      isConnected s = true /\
      exists k, ws s = Some k /\ sockets s !! k <> Some CONNECTING)) /\
  (forall k, connected_on s k ->
     outcome (unsubscribe t) s = Normal true /\
     subscriptions (exec (unsubscribe t) s) = set_delete t (subscriptions s) /\
     (t ∉ subscriptions (exec (unsubscribe t) s)) /\
     sends_of (effects_of (unsubscribe t) s) = [(k, OUnsubscribe t)]) /\
  ((forall k, ~ connected_on s k) ->
     sends_of (effects_of (unsubscribe t) s) = []) /\
  (forall k, isConnected s = true -> ws s = Some k ->
     sockets s !! k = Some CLOSING \/ sockets s !! k = Some CLOSED ->
     outcome (unsubscribe t) s = Normal true /\
     subscriptions (exec (unsubscribe t) s) = set_delete t (subscriptions s) /\
     effects_of (unsubscribe t) s = []) /\
  (forall k, isConnected s = true -> ws s = Some k ->
     sockets s !! k = Some CONNECTING ->
     outcome (unsubscribe t) s = Normal false /\
     subscriptions (exec (unsubscribe t) s) = subscriptions s /\
     effects_of (unsubscribe t) s = [Console LError "send failed"]) /\
  (isConnected s = false ->
     outcome (unsubscribe t) s = Normal false /\
     subscriptions (exec (unsubscribe t) s) = subscriptions s /\
     sends_of (effects_of (unsubscribe t) s) = []).
Proof.
  assert (Heff : effects_of (unsubscribe t) s = send_effects (OUnsubscribe t) s).
  { apply effects_of_trace. unfold exec. rewrite unsubscribe_run. simpl.
    by destruct (send_result s). }
  split; [|split; [|split; [|split; [|split]]]].
  - exists (send_result s). unfold outcome, exec. rewrite unsubscribe_run. simpl.
    split; [done|]. split; [by destruct (send_result s)|].
    apply send_result_true.
  - intros k Hk. pose proof (unsubscribe_run t s) as Hrun.
    rewrite (send_result_connected s k Hk), (send_effects_connected _ s k Hk) in Hrun.
    rewrite (effects_of_trace _ _ [Sent k (OUnsubscribe t)])
      by (unfold exec; by rewrite Hrun).
    unfold outcome, exec. rewrite Hrun. simpl. repeat split.
    rewrite elem_of_set_delete. tauto.
  - intros Hno. rewrite Heff. by apply sends_of_send_effects_unconnected.
  - intros k Hc Hw Hk. rewrite Heff. unfold outcome, exec.
    rewrite unsubscribe_run. unfold send_result, send_effects.
    rewrite Hc, Hw. by destruct Hk as [-> | ->].
  - intros k Hc Hw Hk. rewrite Heff. unfold outcome, exec.
    rewrite unsubscribe_run. unfold send_result, send_effects.
    by rewrite Hc, Hw, Hk.
  - intros Hc. pose proof (unsubscribe_run t s) as Hrun.
    rewrite (send_result_disconnected s Hc), (send_effects_disconnected _ s Hc) in Hrun.
    rewrite (effects_of_trace _ _ [Console LWarn "not connected"])
      by (unfold exec; by rewrite Hrun).
    unfold outcome, exec. by rewrite Hrun.
Qed.

Lemma unsubscribe_removes_when_sent_witness :
  isConnected offline_subscribed = false /\
  subscriptions (exec (unsubscribe "M-01") offline_subscribed) = ["M-01"].
Proof.
  split; [reflexivity|].
  exact (proj1 (proj2 (proj2 (proj2 (proj2 (proj2 (proj2
           (unsubscribe_removes_when_sent "M-01" offline_subscribed))))) eq_refl))).
Defined.

(** ** The backoff schedule *)

Lemma timers_set_of_app a b :
  timers_set_of (a ++ b) = timers_set_of a ++ timers_set_of b.
Proof. apply omap_app. Qed.

Lemma timers_set_of_emit_effects ev d hs :
  timers_set_of (emit_effects ev d hs) = [].
Proof.
  induction hs as [|h hs IH]; [done|].
  rewrite emit_effects_cons, timers_set_of_app, IH.
  by destruct (hthrows h d).
Qed.

(** An unexpected close below the cap schedules one retry after the current
    delay and grows the delay. *)
Lemma onClose_retry code s :
  code <> 1000%Z ->
  reconnectAttempts s < maxReconnectAttempts s ->
  let s' := after_onClose code s in
  reconnectAttempts s' = S (reconnectAttempts s) /\
  reconnectInterval s' = next_interval (reconnectInterval s) /\
  maxReconnectAttempts s' = maxReconnectAttempts s /\
  messageHandlers s' = messageHandlers s /\
  timers s' = timers s ++ [reconnectInterval s] /\
  timers_set_of (onClose_effects code s) = [reconnectInterval s].
Proof.
  intros Hcode Hlt. unfold after_onClose, onClose_effects.
  rewrite bool_decide_eq_true_2 by done.
  unfold after_scheduleReconnect, schedule_effects. simpl.
  apply Nat.ltb_lt in Hlt. rewrite Hlt. simpl.
  rewrite timers_set_of_app, timers_set_of_emit_effects. done.
Qed.

(** An unexpected close at the cap schedules nothing: it reports on the
    console and emits ["max_reconnect_attempts_reached"]. *)
Lemma onClose_gave_up code s :
  code <> 1000%Z ->
  ~ reconnectAttempts s < maxReconnectAttempts s ->
  let s' := after_onClose code s in
  timers s' = timers s /\
  reconnectAttempts s' = reconnectAttempts s /\
  timers_set_of (onClose_effects code s) = [] /\
  Console LError "max reconnect attempts" ∈ onClose_effects code s /\
  calls_of (onClose_effects code s) =
    calls_to "disconnected" (DClose code) (listeners "disconnected" s) ++
    calls_to "max_reconnect_attempts_reached" DUndefined
             (listeners "max_reconnect_attempts_reached" s).
Proof.
  intros Hcode Hge. unfold after_onClose, onClose_effects.
  rewrite bool_decide_eq_true_2 by done.
  unfold after_scheduleReconnect, schedule_effects. simpl.
  apply Nat.ltb_nlt in Hge. rewrite Hge. simpl.
  rewrite timers_set_of_app, !timers_set_of_emit_effects.
  repeat split.
  - apply timers_set_of_emit_effects.
  - rewrite elem_of_app. right. left.
  - rewrite calls_of_app, calls_of_emit_effects. f_equal.
    apply calls_of_emit_effects.
Qed.

Lemma closes_retry codes s :
  Forall (fun code => code <> 1000%Z) codes ->
  reconnectAttempts s + length codes <= maxReconnectAttempts s ->
  exists s' es,
    closes codes s = (Normal tt, s') /\
    trace s' = trace s ++ es /\
    timers_set_of es = delays (length codes) (reconnectInterval s) /\
    timers s' = timers s ++ delays (length codes) (reconnectInterval s) /\
    reconnectAttempts s' = reconnectAttempts s + length codes /\
    maxReconnectAttempts s' = maxReconnectAttempts s /\
    messageHandlers s' = messageHandlers s.
Proof.
  revert s. induction codes as [|code rest IH]; intros s Hall Hle.
  - exists s, []. simpl. rewrite !app_nil_r. repeat split; lia.
  - apply Forall_cons in Hall as [Hcode Hall]. simpl in Hle.
    destruct (onClose_retry code s Hcode) as (Ha & Hi & Hm & Hh & Ht & Hts); [lia|].
    destruct (IH (after_onClose code s) Hall) as
      (s' & es & Hrun & Htr & Hes & Htim & Hatt & Hmax & Hhs); [lia|].
    exists s', (onClose_effects code s ++ es). simpl.
    erewrite bind_run by apply onClose_run.
    split; [exact Hrun|].
    rewrite Htr, after_onClose_trace, timers_set_of_app, Hts, Hes, Htim, Ht,
      Hatt, Ha, Hmax, Hm, Hhs, Hh, Hi, <- !app_assoc.
    repeat split. lia.
Qed.

(** C7: with the constructor's policy (first delay 5000 ms, factor 1.5, cap
    30000 ms, at most 5 attempts), five unexpected closes in a row schedule
    retries after 5000, 7500, 11250, 16875 and 25312.5 ms (the rational
    50625/2); a sixth schedules nothing, reports on the console and emits
    ["max_reconnect_attempts_reached"] to its listeners. *)
Theorem backoff_schedule codes code6 s :
  length codes = 5 ->
  Forall (fun code => code <> 1000%Z) (codes ++ [code6]) ->
  reconnectAttempts s = 0 ->
  maxReconnectAttempts s = 5 ->
  reconnectInterval s = initial_reconnectInterval ->
  let s5 := exec (closes codes) s in
  outcome (closes codes) s = Normal tt /\
  timers_set_of (effects_of (closes codes) s)
    = [5000; 7500; 11250; 16875; 50625 # 2]%Q /\
  timers s5 = timers s ++ [5000; 7500; 11250; 16875; 50625 # 2]%Q /\
  outcome (onClose code6) s5 = Normal tt /\
  timers_set_of (effects_of (onClose code6) s5) = [] /\
  timers (exec (onClose code6) s5) = timers s5 /\
  Console LError "max reconnect attempts" ∈ effects_of (onClose code6) s5 /\
  calls_of (effects_of (onClose code6) s5) =
    calls_to "disconnected" (DClose code6) (listeners "disconnected" s) ++
    calls_to "max_reconnect_attempts_reached" DUndefined
             (listeners "max_reconnect_attempts_reached" s).
Proof.
  intros Hlen Hall Hatt Hmax Hint s5.
  apply Forall_app in Hall as [Hall H6]. rewrite Forall_singleton in H6.
  destruct (closes_retry codes s Hall) as
    (s' & es & Hrun & Htr & Hes & Htim & Hatt' & Hmax' & Hh); [lia|].
  rewrite Hlen, Hint in Hes, Htim.
  assert (Hs5 : s5 = s') by (unfold s5, exec; by rewrite Hrun).
  rewrite Hs5.
  rewrite (effects_of_trace _ _ es) by (unfold exec; by rewrite Hrun).
  destruct (onClose_gave_up code6 s' H6) as (Ht6 & _ & Hts6 & Hcon & Hcalls); [lia|].
  rewrite (effects_of_trace _ _ (onClose_effects code6 s'))
    by (unfold exec; rewrite onClose_run; apply after_onClose_trace).
  unfold outcome, exec. rewrite Hrun, onClose_run. simpl.
  repeat split; try done.
  rewrite Hcalls. unfold listeners. by rewrite Hh.
Qed.

Lemma backoff_schedule_witness :
  length [1006; 1006; 1001; 1011; 1006]%Z = 5 /\
  timers (exec (closes [1006; 1006; 1001; 1011; 1006]%Z) session)
    = timers session ++ [5000; 7500; 11250; 16875; 50625 # 2]%Q.
Proof.
  split; [reflexivity|].
  assert (Hcodes : Forall (fun code => code <> 1000%Z)
                          ([1006; 1006; 1001; 1011; 1006] ++ [1006])%Z)
    by (repeat constructor; discriminate).
  assert (Ha : reconnectAttempts session = 0) by (vm_compute; reflexivity).
  assert (Hm : maxReconnectAttempts session = 5) by (vm_compute; reflexivity).
  assert (Hi : reconnectInterval session = initial_reconnectInterval)
    by (vm_compute; reflexivity).
  exact (proj1 (proj2 (proj2
           (backoff_schedule [1006; 1006; 1001; 1011; 1006]%Z 1006%Z session
              eq_refl Hcodes Ha Hm Hi)))).
Defined.

(** The last delay of the schedule is 25312.5 ms, and every delay the
    manager can reach from 5000 ms is one of six values, all of them exact
    in binary floating point. *)
Lemma delays_exact :
  (50625 # 2 == 25312.5)%Q /\
  Forall (fun d => d ∈ [5000; 7500; 11250; 16875; 50625 # 2; 30000]%Q)
         (delays 12 initial_reconnectInterval).
Proof.
  split; [reflexivity|].
  vm_compute. repeat constructor.
Qed.

(** ** The rolling window of the realtime chart *)

Module ChartProperties.
Import ChartManager.

Lemma shift_push_length {A} cap (a : list A) x :
  0 < cap -> length a <= cap -> length (shift_push cap a x) <= cap.
Proof.
  intros Hcap Hlen. unfold shift_push. rewrite length_app. simpl.
  destruct (Nat.leb_spec cap (length a)).
  - destruct a; simpl in *; lia.
  - lia.
Qed.

Lemma appends_length {A} cap (a xs : list A) :
  0 < cap -> length a <= cap -> length (appends cap a xs) <= cap.
Proof.
  intros Hcap. revert a. induction xs as [|x xs IH]; intros a Hlen; [done|].
  simpl. apply IH. by apply shift_push_length.
Qed.

(** The window is the last [cap] entries of everything it was given. *)
Lemma appends_spec {A} cap (a xs : list A) :
  0 < cap -> length a <= cap ->
  appends cap a xs = drop (length a + length xs - cap) (a ++ xs).
Proof.
  intros Hcap. revert a. induction xs as [|x xs IH]; intros a Hlen.
  - simpl. rewrite app_nil_r.
    replace (length a + 0 - cap) with 0 by lia. done.
  - simpl. rewrite IH by (by apply shift_push_length).
    unfold shift_push. destruct (Nat.leb_spec cap (length a)).
    + destruct a as [|y a]; simpl in *; [lia|].
      rewrite length_app. simpl.
      replace (length a + 1 + length xs - cap) with (length xs) by lia.
      replace (S (length a + S (length xs)) - cap) with (S (length xs)) by lia.
      simpl. by rewrite <- app_assoc.
    + rewrite length_app. simpl.
      replace (length a + 1 + length xs) with (length a + S (length xs)) by lia.
      by rewrite <- app_assoc.
Qed.

Lemma imap_same {A} (l : list A) : imap (fun _ x => x) l = l.
Proof.
  apply list_eq. intros k. rewrite list_lookup_imap. by destruct (l !! k).
Qed.

Lemma imap_twice {A B C} (f : nat -> A -> B) (g : nat -> B -> C) (l : list A) :
  imap g (imap f l) = imap (fun k x => g k (f k x)) l.
Proof.
  apply list_eq. intros k. rewrite !list_lookup_imap. by destruct (l !! k).
Qed.

(** A run of updates with valid timestamps, buffer by buffer. *)
Lemma updates_run machineId samples cm opt :
  realtimeChart cm = Some opt ->
  Forall (fun d => is_Some (timestamp d)) samples ->
  updates machineId samples cm =
  Normal
    {| realtimeChart :=
         Some {| xAxis_data :=
                   appends (maxDataPoints cm) (xAxis_data opt) (stamps samples);
                 series :=
                   imap (fun k sdata =>
                           appends (maxDataPoints cm) sdata (column k samples))
                        (series opt) |};
       maxDataPoints := maxDataPoints cm |}.
Proof.
  revert cm opt. induction samples as [|d rest IH]; intros cm opt Hopt Hall.
  - simpl. destruct cm as [rc cap], opt as [xs ss]. simpl in *. subst rc.
    by rewrite imap_same.
  - apply Forall_cons in Hall as [[ts Hts] Hall].
    cbn [updates]. unfold updateRealtimeChart. rewrite Hopt, Hts.
    erewrite IH; [|reflexivity|done]. cbn [realtimeChart maxDataPoints xAxis_data series].
    unfold stamps. cbn [omap list_omap]. rewrite Hts.
    by rewrite imap_twice.
Qed.

Lemma stamps_valid samples :
  Forall (fun d => is_Some (timestamp d)) samples ->
  length (stamps samples) = length samples /\
  forall n, drop n (stamps samples) = stamps (drop n samples).
Proof.
  induction 1 as [|d rest [ts Hts] _ [IHlen IHdrop]]; [split; [done|by intros []]|].
  unfold stamps in *. cbn [omap list_omap]. rewrite Hts. split.
  - simpl. by rewrite IHlen.
  - intros [|n]; simpl; [by rewrite Hts|apply IHdrop].
Qed.

(** After 60 valid records a buffer that was within a capacity of 50
    holds the entries of records 11 to 60, in arrival order. *)
Lemma appends_60 {A} (a xs : list A) :
  length a <= 50 -> length xs = 60 ->
  appends 50 a xs = drop 10 xs /\ length (appends 50 a xs) = 50.
Proof.
  intros Ha Hxs. rewrite appends_spec by lia.
  replace (length a + length xs - 50) with (length a + 10) by lia.
  rewrite drop_app_add. split; [done|]. rewrite length_drop. lia.
Qed.

(** The labels of a run of records with valid timestamps are the records'
    time stamps. *)
Lemma stamps_timestamps samples :
  Forall (fun d => is_Some (timestamp d)) samples ->
  map Some (stamps samples) = map timestamp samples.
Proof.
  induction 1 as [|d rest [ts Hts] _ IH]; [done|].
  unfold stamps in *. cbn [omap list_omap]. rewrite Hts. simpl.
  by rewrite IH, Hts.
Qed.

(** Entries past the fifth of [seriesData] are [undefined]. *)
Lemma column_beyond k samples :
  5 <= k -> column k samples = replicate (length samples) None.
Proof.
  intros Hk. unfold column. induction samples as [|d rest IH]; [done|].
  simpl. rewrite IH. f_equal. apply lookup_ge_None_2. simpl. lia.
Qed.

(** C8: on a chart whose buffers are within the capacity of 50, a run of
    60 records with valid timestamps leaves, in every series and on the
    time axis, exactly 50 entries: those of records 11 to 60, in arrival
    order.  The first five series hold the temperature, the vibration, the
    current, the speed and the pressure of these records (a missing
    measurement reads as 0), a series past the fifth holds [undefined]
    entries, and the time axis holds the records' time stamps.  After each
    record of the run every buffer is within the capacity. *)
Theorem rolling_window machineId samples cm opt :
  realtimeChart cm = Some opt ->
  maxDataPoints cm = 50 ->
  within_capacity cm ->
  length samples = 60 ->
  Forall (fun d => is_Some (timestamp d)) samples ->
  let kept (field : MachineData -> option Q) : list (option Q) :=
    map (fun d => Some (match field d with Some v => v | None => 0%Q end))
        (drop 10 samples) in
  (exists opt',
     updates machineId samples cm =
       Normal {| realtimeChart := Some opt'; maxDataPoints := 50 |} /\
     series opt' =
       imap (fun k _ => column k (drop 10 samples)) (series opt) /\
     Forall (fun sdata => length sdata = 50) (series opt') /\
     xAxis_data opt' = stamps (drop 10 samples) /\
     length (xAxis_data opt') = 50 /\
     length (series opt') = length (series opt) /\
     (is_Some (series opt !! 0) -> series opt' !! 0 = Some (kept temperature)) /\
     (is_Some (series opt !! 1) -> series opt' !! 1 = Some (kept vibration)) /\
     (is_Some (series opt !! 2) -> series opt' !! 2 = Some (kept current)) /\
     (is_Some (series opt !! 3) -> series opt' !! 3 = Some (kept speed)) /\
     (is_Some (series opt !! 4) -> series opt' !! 4 = Some (kept pressure)) /\
     (forall k, 5 <= k -> is_Some (series opt !! k) ->
        series opt' !! k = Some (replicate 50 None)) /\
     map Some (xAxis_data opt') = map timestamp (drop 10 samples)) /\
  (forall n, exists cm_n opt_n,
     updates machineId (take n samples) cm = Normal cm_n /\
     within_capacity cm_n /\
     realtimeChart cm_n = Some opt_n /\
     length (xAxis_data opt_n) <= 50 /\
     (forall k sdata, series opt_n !! k = Some sdata -> length sdata <= 50)).
Proof.
  intros Hopt Hcap Hwithin Hlen Hvalid kept.
  unfold within_capacity in Hwithin. rewrite Hopt, Hcap in Hwithin.
  destruct Hwithin as [Hx Hs]. rewrite Forall_lookup in Hs.
  destruct (stamps_valid samples Hvalid) as [Hslen Hsdrop].
  assert (Hlookup : forall k, is_Some (series opt !! k) ->
            imap (fun k _ => column k (drop 10 samples)) (series opt) !! k
            = Some (column k (drop 10 samples))).
  { intros k [sdata Hk]. by rewrite list_lookup_imap, Hk. }
  assert (Hstamps : map Some (stamps (drop 10 samples))
                    = map timestamp (drop 10 samples)).
  { apply stamps_timestamps. by apply Forall_drop. }
  split.
  - eexists. rewrite (updates_run _ _ _ _ Hopt Hvalid), Hcap.
    split; [reflexivity|]. cbn [series xAxis_data].
    assert (Hser : imap (fun k sdata => appends 50 sdata (column k samples))
                        (series opt)
                 = imap (fun k _ => column k (drop 10 samples)) (series opt)).
    { apply imap_ext. intros k sdata Hk. simpl.
      destruct (appends_60 sdata (column k samples)) as [-> _];
        [by eapply Hs|unfold column; by rewrite length_map|].
      unfold column. by rewrite <- fmap_drop. }
    destruct (appends_60 (xAxis_data opt) (stamps samples)) as [Hxs Hxl];
      [done|lia|].
    rewrite Hser, Hxs, Hsdrop.
    split; [done|]. split.
    { rewrite Forall_lookup. intros k sdata. rewrite list_lookup_imap.
      destruct (series opt !! k); [|done]. intros [= <-].
      unfold column. rewrite length_map, length_drop. lia. }
    split; [done|]. split; [by rewrite <- Hsdrop, <- Hxs|].
    split; [by rewrite length_imap|].
    split; [intros H; rewrite (Hlookup 0 H); reflexivity|].
    split; [intros H; rewrite (Hlookup 1 H); reflexivity|].
    split; [intros H; rewrite (Hlookup 2 H); reflexivity|].
    split; [intros H; rewrite (Hlookup 3 H); reflexivity|].
    split; [intros H; rewrite (Hlookup 4 H); reflexivity|].
    split; [|exact Hstamps].
    intros k Hk H. rewrite (Hlookup k H), (column_beyond k _ Hk).
    rewrite length_drop. by replace (length samples - 10) with 50 by lia.
  - intros n. eexists. eexists.
    rewrite (updates_run _ _ _ _ Hopt) by (by apply Forall_take).
    rewrite Hcap.
    assert (Hser : forall k sdata,
              imap (fun k sdata => appends 50 sdata (column k (take n samples)))
                   (series opt) !! k = Some sdata -> length sdata <= 50).
    { intros k sdata. rewrite list_lookup_imap.
      destruct (series opt !! k) as [sd|] eqn:Hk; [|done]. intros [= <-].
      apply appends_length; [lia|]. by eapply Hs. }
    split; [reflexivity|]. unfold within_capacity. cbn.
    split; [split; [apply appends_length; lia|] |].
    + rewrite Forall_lookup. exact Hser.
    + split; [reflexivity|]. split; [apply appends_length; lia|exact Hser].
Qed.

Lemma rolling_window_witness :
  length sample_run = 60 /\
  (exists opt',
     updates "M-01" sample_run fresh_chart =
       Normal {| realtimeChart := Some opt'; maxDataPoints := 50 |} /\
     series opt' !! 0 =
       Some (map (fun n => Some (inject_Z (Z.of_nat n))) (seq 11 50)) /\
     series opt' !! 1 = Some (replicate 50 (Some 0%Q))) /\
  forall n, exists cm_n opt_n,
    updates "M-01" (take n sample_run) fresh_chart = Normal cm_n /\
    within_capacity cm_n /\
    realtimeChart cm_n = Some opt_n /\
    length (xAxis_data opt_n) <= 50 /\
    (forall k sdata, series opt_n !! k = Some sdata -> length sdata <= 50).
Proof.
  assert (Hw : within_capacity fresh_chart).
  { split; [simpl; lia|]. repeat constructor; simpl; lia. }
  assert (Hv : Forall (fun d => is_Some (timestamp d)) sample_run).
  { unfold sample_run. apply Forall_fmap, Forall_true. intros n.
    eexists. reflexivity. }
  pose proof (rolling_window "M-01" sample_run fresh_chart
                {| xAxis_data := []; series := replicate 5 [] |}
                eq_refl eq_refl Hw eq_refl Hv) as [Hend Hall].
  split; [reflexivity|]. split; [|exact Hall].
  destruct Hend as (opt' & Hrun & _ & _ & _ & _ & _ & H0 & H1 & _).
  exists opt'. split; [exact Hrun|]. split.
  - exact (H0 (ex_intro _ [] eq_refl)).
  - exact (H1 (ex_intro _ [] eq_refl)).
Defined.

(** On that run the temperature series ends with the values 11 to 60. *)
Example temperature_after_60 :
  match updates "M-01" sample_run fresh_chart with
  | Normal cm =>
      (fun o => series o !! 0) <$> realtimeChart cm =
      Some (Some (map (fun n => Some (inject_Z (Z.of_nat n))) (seq 11 50)))
  | Thrown _ => False
  end.
Proof. vm_compute. reflexivity. Qed.

(** ** More on the realtime chart *)

(** X22: the window holds the latest entries, for any capacity of at least
    one and any number of records.  On a chart whose buffers are within the
    capacity, a run of records with valid timestamps returns normally and
    leaves in each series, and on the time axis, the last [capacity] entries
    of what it held followed by what it was given (all of them while they
    fit); the number of series does not change and every buffer is still
    within the capacity. *)
Theorem window_holds_latest machineId samples cm opt :
  realtimeChart cm = Some opt ->
  0 < maxDataPoints cm ->
  within_capacity cm ->
  Forall (fun d => is_Some (timestamp d)) samples ->
  exists opt',
    updates machineId samples cm =
      Normal {| realtimeChart := Some opt'; maxDataPoints := maxDataPoints cm |} /\
    length (series opt') = length (series opt) /\
    (forall k sdata,
       series opt !! k = Some sdata ->
       series opt' !! k =
       Some (drop (length sdata + length samples - maxDataPoints cm)
                  (sdata ++ column k samples))) /\
    xAxis_data opt' =
      drop (length (xAxis_data opt) + length samples - maxDataPoints cm)
           (xAxis_data opt ++ stamps samples) /\
    within_capacity
      {| realtimeChart := Some opt'; maxDataPoints := maxDataPoints cm |}.
Proof.
  intros Hopt Hcap Hwithin Hvalid.
  unfold within_capacity in Hwithin. rewrite Hopt in Hwithin.
  destruct Hwithin as [Hx Hs]. rewrite Forall_lookup in Hs.
  destruct (stamps_valid samples Hvalid) as [Hslen _].
  eexists. rewrite (updates_run _ _ _ _ Hopt Hvalid).
  split; [reflexivity|]. cbn [series xAxis_data].
  split; [apply length_imap|]. split; [|split].
  - intros k sdata Hk. rewrite list_lookup_imap, Hk. simpl.
    rewrite appends_spec by (by eauto).
    unfold column. by rewrite length_map.
  - rewrite appends_spec by done. by rewrite Hslen.
  - unfold within_capacity. cbn.
    split; [by apply appends_length|].
    rewrite Forall_lookup. intros k sdata. rewrite list_lookup_imap.
    destruct (series opt !! k) as [sd|] eqn:Hk; [|done]. intros [= <-].
    apply appends_length; [done|]. by eapply Hs.
Qed.

Lemma window_holds_latest_witness :
  0 < maxDataPoints fresh_chart /\
  exists opt',
    updates "M-01" (take 7 sample_run) fresh_chart =
      Normal {| realtimeChart := Some opt'; maxDataPoints := 50 |} /\
    length (series opt') = 5.
Proof.
  split; [vm_compute; lia|].
  assert (Hw : within_capacity fresh_chart).
  { split; [simpl; lia|]. repeat constructor; simpl; lia. }
  assert (Hv : Forall (fun d => is_Some (timestamp d)) (take 7 sample_run)).
  { apply Forall_take. unfold sample_run. apply Forall_fmap, Forall_true.
    intros n. eexists. reflexivity. }
  assert (Hc : 0 < maxDataPoints fresh_chart) by (vm_compute; lia).
  destruct (window_holds_latest "M-01" (take 7 sample_run) fresh_chart
              {| xAxis_data := []; series := replicate 5 [] |}
              eq_refl Hc Hw Hv) as (opt' & Hrun & Hlen & _).
  exists opt'. split; [exact Hrun|exact Hlen].
Defined.

Lemma shift_push_next_length {A} cap (a : list A) x :
  length (shift_push cap a x) = next_length cap (length a).
Proof.
  unfold shift_push, next_length. rewrite length_app. simpl.
  destruct (Nat.leb cap (length a)); [|done]. by destruct a.
Qed.

Lemma appends_same_length {A B} cap (a : list A) (b : list B) xs ys :
  length a = length b -> length xs = length ys ->
  length (appends cap a xs) = length (appends cap b ys).
Proof.
  revert a b ys. induction xs as [|x xs IH]; intros a b [|y ys] Hab Hxy;
    try done.
  simpl. apply IH; [|by injection Hxy].
  by rewrite !shift_push_next_length, Hab.
Qed.

Lemma appends_Forall {A} (P : A -> Prop) cap (a xs : list A) :
  Forall P a -> Forall P xs -> Forall P (appends cap a xs).
Proof.
  revert a. induction xs as [|x xs IH]; intros a Ha Hxs; [done|].
  apply Forall_cons in Hxs as [Hx Hxs]. simpl. apply IH; [|done].
  unfold shift_push. apply Forall_app. split; [|by constructor].
  destruct (Nat.leb cap (length a)); [|done].
  destruct a; [done|]. by apply Forall_cons in Ha as [_ Ha].
Qed.

Lemma column_numbers k samples :
  k < 5 -> Forall is_Some (column k samples).
Proof.
  intros Hk. unfold column. apply Forall_fmap, Forall_true. intros d.
  apply lookup_lt_is_Some. simpl. lia.
Qed.

(** X23: points and labels stay aligned.  On a chart whose series all
    have as many entries as the time axis, with at most five series holding
    numbers only (as [initRealtimeChart] builds it), every run of records
    with valid timestamps keeps it so: the series and the axis have the
    same length after the run and no series ever holds [undefined]. *)
Theorem chart_stays_aligned machineId samples cm opt :
  realtimeChart cm = Some opt ->
  aligned cm -> all_numbers cm -> length (series opt) <= 5 ->
  Forall (fun d => is_Some (timestamp d)) samples ->
  exists cm',
    updates machineId samples cm = Normal cm' /\
    aligned cm' /\ all_numbers cm' /\
    (fun o => length (series o)) <$> realtimeChart cm' = Some (length (series opt)).
Proof.
  intros Hopt Hal Hnum Hfive Hvalid.
  unfold aligned in Hal. unfold all_numbers in Hnum. rewrite Hopt in Hal, Hnum.
  rewrite Forall_lookup in Hal. rewrite Forall_lookup in Hnum.
  destruct (stamps_valid samples Hvalid) as [Hslen _].
  eexists. rewrite (updates_run _ _ _ _ Hopt Hvalid).
  split; [reflexivity|]. unfold aligned, all_numbers. cbn.
  split; [|split].
  - rewrite Forall_lookup. intros k sdata. rewrite list_lookup_imap.
    destruct (series opt !! k) as [sd|] eqn:Hk; [|done]. intros [= <-].
    apply appends_same_length; [by eapply Hal|].
    unfold column. by rewrite length_map, Hslen.
  - rewrite Forall_lookup. intros k sdata. rewrite list_lookup_imap.
    destruct (series opt !! k) as [sd|] eqn:Hk; [|done]. intros [= <-].
    apply appends_Forall; [by eapply Hnum|].
    apply column_numbers. apply lookup_lt_Some in Hk. lia.
  - by rewrite length_imap.
Qed.

Lemma chart_stays_aligned_witness :
  aligned fresh_chart /\ all_numbers fresh_chart /\
  exists cm', updates "M-01" sample_run fresh_chart = Normal cm' /\ aligned cm'.
Proof.
  assert (Ha : aligned fresh_chart) by (repeat constructor).
  assert (Hn : all_numbers fresh_chart) by (repeat constructor).
  assert (Hv : Forall (fun d => is_Some (timestamp d)) sample_run).
  { unfold sample_run. apply Forall_fmap, Forall_true.
    intros n. eexists. reflexivity. }
  split; [exact Ha|]. split; [exact Hn|].
  destruct (chart_stays_aligned "M-01" sample_run fresh_chart
              {| xAxis_data := []; series := replicate 5 [] |}
              eq_refl Ha Hn (le_n 5) Hv) as (cm' & Hrun & Hal & _).
  exists cm'. split; [exact Hrun|exact Hal].
Defined.

Lemma updates_uninitialised machineId samples cm :
  realtimeChart cm = None -> updates machineId samples cm = Normal cm.
Proof.
  intros Hnone. induction samples as [|d rest IH]; [done|].
  simpl. unfold updateRealtimeChart. by rewrite Hnone.
Qed.

(** X24: the guards of [updateRealtimeChart].  Before the chart is set up
    every record is ignored, an invalid timestamp included, and nothing is
    thrown.  Once it is set up, a run of records throws a RangeError at its
    first record with an invalid timestamp, after the valid ones before
    it. *)
Theorem updates_guards machineId good bad rest cm :
  (realtimeChart cm = None ->
   updates machineId (good ++ bad :: rest) cm = Normal cm) /\
  (is_Some (realtimeChart cm) ->
   Forall (fun d => is_Some (timestamp d)) good ->
   timestamp bad = None ->
   updates machineId (good ++ bad :: rest) cm = Thrown "RangeError" /\
   exists cm', updates machineId good cm = Normal cm').
Proof.
  split; [apply updates_uninitialised|].
  intros [opt Hopt] Hgood Hbad.
  split; [|eexists; by apply updates_run].
  revert cm opt Hopt. induction Hgood as [|d good [ts Hts] _ IH];
    intros cm opt Hopt.
  - simpl. unfold updateRealtimeChart. by rewrite Hopt, Hbad.
  - simpl. unfold updateRealtimeChart. rewrite Hopt, Hts.
    by eapply IH.
Qed.

Lemma updates_guards_witness :
  is_Some (realtimeChart fresh_chart) /\
  updates "M-01" (take 3 sample_run ++ undated :: sample_run) fresh_chart
  = Thrown "RangeError".
Proof.
  assert (Hs : is_Some (realtimeChart fresh_chart)) by (eexists; reflexivity).
  assert (Hv : Forall (fun d => is_Some (timestamp d)) (take 3 sample_run)).
  { apply Forall_take. unfold sample_run. apply Forall_fmap, Forall_true.
    intros n. eexists. reflexivity. }
  split; [exact Hs|].
  exact (proj1 (proj2 (updates_guards "M-01" (take 3 sample_run) undated
                         sample_run fresh_chart) Hs Hv eq_refl)).
Defined.

(** ** The temperature trend chart *)

Lemma update_found_names machineId f l :
  map name (update_found machineId f l) = map name l.
Proof.
  induction l as [|s l IH]; [done|]. simpl.
  destruct (String.eqb (name s) machineId); simpl; [done|by rewrite IH].
Qed.

Lemma update_found_absent machineId f l :
  machineId ∉ map name l -> update_found machineId f l = l.
Proof.
  induction l as [|s l IH]; [done|]. simpl. intros Hnot.
  apply not_elem_of_cons in Hnot as [Hne Hnot].
  destruct (String.eqb_spec (name s) machineId); [congruence|].
  by rewrite IH.
Qed.

Lemma update_found_first machineId f l1 s l2 :
  name s = machineId -> machineId ∉ map name l1 ->
  update_found machineId f (l1 ++ s :: l2) =
  l1 ++ {| name := machineId; data := f (data s) |} :: l2.
Proof.
  intros Hs Hnot. induction l1 as [|s1 l1 IH]; simpl.
  - rewrite Hs, String.eqb_refl. done.
  - simpl in Hnot. apply not_elem_of_cons in Hnot as [Hne Hnot].
    destruct (String.eqb_spec (name s1) machineId); [congruence|].
    by rewrite IH.
Qed.

(** X25: an update of the trend chart touches one series at most.  Before
    the chart is set up it does nothing; for a machine without a series it
    leaves the chart as it is; otherwise it appends the temperature to the
    first series of that name, dropping its oldest entry when it holds 24
    or more, and leaves the other series, the names and the time labels as
    they are. *)
Theorem trend_update_touches_one_series machineId temperature opt :
  updateTemperatureTrendChart machineId temperature None = None /\
  exists opt',
    updateTemperatureTrendChart machineId temperature (Some opt) = Some opt' /\
    trend_labels opt' = trend_labels opt /\
    map name (trend_series opt') = map name (trend_series opt) /\
    (machineId ∉ map name (trend_series opt) -> opt' = opt) /\
    (forall l1 s l2,
       trend_series opt = l1 ++ s :: l2 ->
       name s = machineId -> machineId ∉ map name l1 ->
       trend_series opt' =
       l1 ++ {| name := machineId;
                data := shift_push 24 (data s) temperature |} :: l2).
Proof.
  split; [done|]. eexists. split; [reflexivity|]. simpl.
  split; [done|]. split; [apply update_found_names|]. split.
  - intros Hnot. rewrite update_found_absent by done. by destruct opt.
  - intros l1 s l2 -> Hs Hnot. by apply update_found_first.
Qed.

Lemma trend_update_touches_one_series_witness :
  ("LATHE9" ∉ map name [ {| name := "CNC001"; data := [] |} ]) /\
  updateTemperatureTrendChart "LATHE9" (PNumber 40)
    (Some {| trend_labels := ["9:00"];
             trend_series := [ {| name := "CNC001"; data := [] |} ] |})
  = Some {| trend_labels := ["9:00"];
            trend_series := [ {| name := "CNC001"; data := [] |} ] |}.
Proof.
  assert (H : "LATHE9" ∉ map name [ {| name := "CNC001"; data := [] |} ]).
  { simpl. intros Hin. apply list_elem_of_singleton in Hin. discriminate. }
  split; [exact H|].
  destruct (trend_update_touches_one_series "LATHE9" (PNumber 40)
              {| trend_labels := ["9:00"];
                 trend_series := [ {| name := "CNC001"; data := [] |} ] |})
    as (_ & opt' & Hrun & _ & _ & Hsame & _).
  rewrite Hrun. f_equal. exact (Hsame H).
Defined.

Lemma labels_loop_spec now getHours fuel i labels :
  Z.to_nat (i + 1) <= fuel ->
  labels_loop now getHours fuel i labels =
  labels ++ map (fun k => hour_label now getHours (i - Z.of_nat k))
                (seq 0 (Z.to_nat (i + 1))).
Proof.
  revert i labels. induction fuel as [|fuel IH]; intros i labels Hfuel.
  - simpl. replace (Z.to_nat (i + 1)) with 0 by lia. simpl.
    by rewrite app_nil_r.
  - simpl. destruct (Z.leb_spec 0 i) as [Hi|Hi].
    + rewrite IH by lia.
      replace (Z.to_nat (i + 1)) with (S (Z.to_nat (i - 1 + 1))) by lia.
      rewrite <- cons_seq, <- fmap_S_seq. simpl.
      rewrite <- app_assoc. simpl. rewrite Z.sub_0_r. do 2 f_equal.
      rewrite map_map. apply map_ext. intros k. f_equal. lia.
    + replace (Z.to_nat (i + 1)) with 0 by lia. simpl.
      by rewrite app_nil_r.
Qed.

(** X26: [generateTimeLabels(hours)] returns one label per hour, oldest
    first: label [k] is the hour of day [hours - 1 - k] hours before now, so
    the last one is the current hour; for [hours <= 0] the list is empty.
    The loop makes exactly [hours] turns: more fuel changes nothing. *)
Theorem generateTimeLabels_spec now getHours hours :
  length (generateTimeLabels now getHours hours) = Z.to_nat hours /\
  (forall k, k < Z.to_nat hours ->
     generateTimeLabels now getHours hours !! k =
     Some (hour_label now getHours (hours - 1 - Z.of_nat k))) /\
  (forall fuel, Z.to_nat hours <= fuel ->
     labels_loop now getHours fuel (hours - 1) [] =
     generateTimeLabels now getHours hours) /\
  ((hours <= 0)%Z -> generateTimeLabels now getHours hours = []).
Proof.
  assert (Heq : Z.to_nat (hours - 1 + 1) = Z.to_nat hours) by (f_equal; lia).
  assert (Hgen : generateTimeLabels now getHours hours =
                 map (fun k => hour_label now getHours (hours - 1 - Z.of_nat k))
                     (seq 0 (Z.to_nat hours))).
  { unfold generateTimeLabels. rewrite labels_loop_spec by lia.
    by rewrite Heq. }
  split; [by rewrite Hgen, length_map, length_seq|].
  split; [|split].
  - intros k Hk. rewrite Hgen. rewrite list_lookup_fmap.
    by rewrite lookup_seq_lt.
  - intros fuel Hfuel. rewrite labels_loop_spec by lia.
    by rewrite Hgen, Heq.
  - intros Hle. rewrite Hgen. by replace (Z.to_nat hours) with 0 by lia.
Qed.

Lemma generateTimeLabels_spec_witness :
  2 < Z.to_nat 3 /\
  generateTimeLabels 1700000000000 (fun t => (t / 3600000) mod 24)%Z 3 !! 2
  = Some "22:00".
Proof.
  split; [vm_compute; lia|].
  assert (H : 2 < Z.to_nat 3) by (vm_compute; lia).
  exact (proj1 (proj2 (generateTimeLabels_spec 1700000000000
                         (fun t => (t / 3600000) mod 24)%Z 3)) 2 H).
Defined.

Lemma shift_push_24 {A} (a : list A) x :
  length a = 24 -> length (shift_push 24 a x) = 24.
Proof. intros H. by rewrite shift_push_next_length, H. Qed.

Lemma update_found_keeps_24 machineId temperature l :
  Forall (fun s => length (data s) = 24) l ->
  Forall (fun s => length (data s) = 24)
         (update_found machineId
            (fun sdata => shift_push 24 sdata temperature) l).
Proof.
  induction 1 as [|s l Hs Hl IH]; [constructor|]. simpl.
  destruct (String.eqb (name s) machineId); constructor; try done.
  simpl. by apply shift_push_24.
Qed.

Lemma trend_updates_keep_24 us opt :
  Forall (fun s => length (data s) = 24) (trend_series opt) ->
  exists opt',
    trend_updates us (Some opt) = Some opt' /\
    Forall (fun s => length (data s) = 24) (trend_series opt') /\
    map name (trend_series opt') = map name (trend_series opt) /\
    trend_labels opt' = trend_labels opt.
Proof.
  revert opt. induction us as [|[m t] us IH]; intros opt Hall.
  - by exists opt.
  - simpl.
    destruct (IH {| trend_labels := trend_labels opt;
                    trend_series :=
                      update_found m (fun sdata => shift_push 24 sdata t)
                                   (trend_series opt) |})
      as (opt' & Hrun & Hlen & Hnames & Hlabels).
    { simpl. by apply update_found_keeps_24. }
    exists opt'. split; [exact Hrun|]. split; [exact Hlen|].
    simpl in Hnames, Hlabels. by rewrite Hnames, update_found_names.
Qed.

(** X27: the trend chart always shows 24 points per machine.  On the chart
    as [initTemperatureTrendChart] builds it, whatever the clock and the
    random draws, every sequence of updates, for known and unknown machines
    alike, leaves the three series CNC001, MILL001 and DRILL001 with exactly
    24 entries each; the 24 time labels computed at set-up are never
    changed. *)
Theorem trend_chart_keeps_24 now getHours Math_random toFixed1 us chart :
  exists opt,
    trend_updates us
      (initTemperatureTrendChart now getHours Math_random toFixed1 true chart)
      = Some opt /\
    map name (trend_series opt) = ["CNC001"; "MILL001"; "DRILL001"] /\
    Forall (fun s => length (data s) = 24) (trend_series opt) /\
    trend_labels opt = generateTimeLabels now getHours 24 /\
    length (trend_labels opt) = 24.
Proof.
  unfold initTemperatureTrendChart.
  match goal with |- context [trend_updates us (Some ?o)] =>
    destruct (trend_updates_keep_24 us o) as (opt & Hrun & Hlen & Hnames & Hlabels)
  end.
  { repeat constructor; simpl; unfold generateRandomData;
      by rewrite length_map, length_seq. }
  cbn [trend_labels trend_series] in Hnames, Hlabels.
  exists opt. split; [exact Hrun|]. split; [exact Hnames|].
  split; [exact Hlen|]. split; [exact Hlabels|].
  rewrite Hlabels.
  by destruct (generateTimeLabels_spec now getHours 24) as [-> _].
Qed.

End ChartProperties.

(** ** Malformed frames *)

(** [onMessage] catches whatever its body throws. *)
Lemma onMessage_returns JSON_parse frame s :
  outcome (onMessage JSON_parse frame) s = Normal tt.
Proof.
  unfold outcome, onMessage, try_catch.
  destruct (match JSON_parse frame with
            | Some message => handleMessage message
            | None => throw "SyntaxError"
            end s) as [[a|e] s']; [by destruct a|reflexivity].
Qed.

(** C9: a frame that [JSON.parse] rejects does not make [onMessage] throw;
    the manager reports it on the console and is otherwise exactly as it
    was, the connected flag included. *)
Theorem malformed_frame_dropped JSON_parse frame s :
  JSON_parse frame = None ->
  outcome (onMessage JSON_parse frame) s = Normal tt /\
  exec (onMessage JSON_parse frame) s
    = add_effects [Console LError "parse failed"] s /\
  isConnected (exec (onMessage JSON_parse frame) s) = isConnected s /\
  calls_of (effects_of (onMessage JSON_parse frame) s) = [] /\
  sends_of (effects_of (onMessage JSON_parse frame) s) = [].
Proof.
  intros Hparse.
  assert (Hrun : onMessage JSON_parse frame s =
                 (Normal tt, add_effects [Console LError "parse failed"] s)).
  { unfold onMessage, try_catch. rewrite Hparse. reflexivity. }
  rewrite (effects_of_trace _ _ [Console LError "parse failed"])
    by (unfold exec; by rewrite Hrun).
  unfold outcome, exec. by rewrite Hrun.
Qed.

Lemma malformed_frame_dropped_witness :
  parse_literal "{type: ping" = None /\
  isConnected (exec (onMessage parse_literal "{type: ping") session) = true.
Proof.
  split; [reflexivity|].
  apply (malformed_frame_dropped parse_literal "{type: ping" session eq_refl).
Defined.

(** ** Dispatch of the typed messages *)

Lemma app_call_run method s :
  app_call method s = (Normal tt, add_effects (app_effects method s) s).
Proof.
  unfold app_call, app_effects, bind, get.
  destruct (window_app s) as [methods|]; [case_bool_decide|];
    simpl; by rewrite ?add_effects_nil.
Qed.

Lemma calls_of_app_effects method s : calls_of (app_effects method s) = [].
Proof.
  unfold app_effects. destruct (window_app s); [case_bool_decide|]; done.
Qed.

Lemma handleMessage_typed_run t s m :
  m_type m = Some t ->
  t ∈ emitted_in_switch ->
  exists pre,
    calls_of pre = [] /\
    handleMessage (JMsg m) s =
    (Normal tt,
     add_effects (pre
                  ++ emit_effects t (DMessage m) (listeners t s)
                  ++ emit_effects "message" (DMessage m) (listeners "message" s)
                  ++ emit_effects t (DMessage m) (listeners t s)) s).
Proof.
  intros Ht Hin. unfold emitted_in_switch in Hin.
  repeat (apply elem_of_cons in Hin as [->|Hin]); [..|by apply elem_of_nil in Hin].
  all: switch_on Ht.
  all: unfold handleWelcomeMessage, handleMachineDataMessage,
         handleStatusChangeMessage, handleControlResponseMessage,
         handleSystemNotificationMessage, handleMaintenanceAlertMessage,
         handlePerformanceReportMessage, handleSubscriptionConfirmedMessage,
         handleUnsubscriptionConfirmedMessage, emit_type.
  all: first
    [ exists []; split; [reflexivity|];
      erewrite bind_run by apply emit_run;
      erewrite bind_run by apply emit_run;
      rewrite emit_run; by rewrite !add_effects_app, <- ?app_assoc
    | eexists (app_effects _ s); split; [apply calls_of_app_effects|];
      erewrite bind_run by
        (erewrite bind_run by apply app_call_run; apply emit_run);
      erewrite bind_run by apply emit_run;
      rewrite emit_run; by rewrite !add_effects_app, <- ?app_assoc ].
Qed.

(** C10 does not hold of the code.  For a message of a type with its own
    case in the switch, the case's handler emits the typed event first, and
    [handleMessage] then emits the wildcard event and the typed event again:
    the listeners of the type are called before the wildcard listeners and
    twice per dispatch. *)
Theorem typed_listeners_called_twice t s m :
  m_type m = Some t ->
  t ∈ emitted_in_switch ->
  outcome (handleMessage (JMsg m)) s = Normal tt /\
  calls_of (effects_of (handleMessage (JMsg m)) s) =
    calls_to t (DMessage m) (listeners t s) ++
    calls_to "message" (DMessage m) (listeners "message" s) ++
    calls_to t (DMessage m) (listeners t s).
Proof.
  intros Ht Hin.
  destruct (handleMessage_typed_run t s m Ht Hin) as (pre & Hpre & Hrun).
  unfold outcome. rewrite Hrun. split; [reflexivity|].
  erewrite effects_of_add; [|exact Hrun|reflexivity].
  by rewrite !calls_of_app, !calls_of_emit_effects, Hpre.
Qed.

Lemma typed_listeners_called_twice_witness :
  m_type (message_of_type "machine_data") = Some "machine_data" /\
  "machine_data" ∈ emitted_in_switch /\
  calls_of (effects_of (handleMessage (JMsg (message_of_type "machine_data")))
                       dashboard)
  = [ (1, "machine_data", DMessage (message_of_type "machine_data"));
      (2, "message", DMessage (message_of_type "machine_data"));
      (1, "machine_data", DMessage (message_of_type "machine_data")) ].
Proof.
  assert (Hin : "machine_data" ∈ emitted_in_switch)
    by (unfold emitted_in_switch; right; left).
  split; [reflexivity|]. split; [exact Hin|].
  exact (proj2 (typed_listeners_called_twice "machine_data" dashboard
                  (message_of_type "machine_data") eq_refl Hin)).
Defined.

(** A listener that throws is reported and the next one still runs. *)
Example faulty_listener_isolated :
  let s := exec (on "alarm" (faulty 1) >> on "alarm" (quiet 2))
                (constructor None true) in
  effects_of (emit "alarm" DError) s =
  [ Called 1 "alarm" DError; Console LError "alarm"; Called 2 "alarm" DError ].
Proof. reflexivity. Qed.

(** [off] removes the first registration of a listener and no other. *)
Example off_removes_one_registration :
  let s := exec (on "alarm" (quiet 1) >> on "alarm" (quiet 2) >>
                 on "alarm" (quiet 1) >> off "alarm" (quiet 1))
                (constructor None true) in
  map hid (listeners "alarm" s) = [2; 1].
Proof. reflexivity. Qed.

(** ** Dispatch only appends to the trace *)

Lemma passive_emit_effects ev d hs : Forall passive (emit_effects ev d hs).
Proof.
  induction hs as [|h hs IH]; [constructor|].
  rewrite emit_effects_cons. apply Forall_app. split; [|done].
  destruct (hthrows h d); repeat constructor.
Qed.

Lemma passive_send_effects f s : Forall passive (send_effects f s).
Proof.
  unfold send_effects. destruct (isConnected s), (ws s) as [i|];
    try (repeat constructor).
  destruct (serialisable f); [|repeat constructor].
  destruct (sockets s !! i) as [[]|]; repeat constructor.
Qed.

Lemma passive_app_effects method s : Forall passive (app_effects method s).
Proof.
  unfold app_effects. destruct (window_app s); [case_bool_decide|];
    repeat constructor.
Qed.

Lemma only_appends_ret {A} (a : A) : only_appends (ret a).
Proof. intros s. exists (Normal a), []. by rewrite add_effects_nil. Qed.

Lemma only_appends_throw {A} e : only_appends (@throw A e).
Proof. intros s. exists (Thrown e), []. by rewrite add_effects_nil. Qed.

Lemma only_appends_get : only_appends get.
Proof. intros s. exists (Normal s), []. by rewrite add_effects_nil. Qed.

Lemma only_appends_console lvl what : only_appends (effect (Console lvl what)).
Proof. intros s. exists (Normal tt), [Console lvl what]. by repeat constructor. Qed.

Lemma only_appends_emit ev d : only_appends (emit ev d).
Proof.
  intros s. eexists _, _. split; [apply emit_run|apply passive_emit_effects].
Qed.

Lemma only_appends_send f : only_appends (send f).
Proof.
  intros s. eexists _, _. split; [apply send_run|apply passive_send_effects].
Qed.

Lemma only_appends_app_call method : only_appends (app_call method).
Proof.
  intros s. eexists _, _. split; [apply app_call_run|apply passive_app_effects].
Qed.

Lemma only_appends_bind {A B} (m : M A) (k : A -> M B) :
  only_appends m -> (forall a, only_appends (k a)) -> only_appends (bind m k).
Proof.
  intros Hm Hk s. destruct (Hm s) as ([a|e] & es & Hrun & Hes);
    unfold bind; rewrite Hrun.
  - destruct (Hk a (add_effects es s)) as (r & es' & Hrun' & Hes').
    exists r, (es ++ es'). rewrite Hrun', add_effects_app.
    split; [done|by apply Forall_app].
  - by exists (Thrown e), es.
Qed.

Lemma only_appends_try_catch {A} (body : M A) handler :
  only_appends body -> (forall e, only_appends (handler e)) ->
  only_appends (try_catch body handler).
Proof.
  intros Hb Hh s. destruct (Hb s) as ([a|e] & es & Hrun & Hes);
    unfold try_catch; rewrite Hrun.
  - by exists (Normal a), es.
  - destruct (Hh e (add_effects es s)) as (r & es' & Hrun' & Hes').
    exists r, (es ++ es'). rewrite Hrun', add_effects_app.
    split; [done|by apply Forall_app].
Qed.

Lemma only_appends_if {A} (b : bool) (m1 m2 : M A) :
  only_appends m1 -> only_appends m2 -> only_appends (if b then m1 else m2).
Proof. by destruct b. Qed.

Create HintDb appends.
#[local] Hint Resolve only_appends_ret only_appends_throw only_appends_get
  only_appends_console
  only_appends_emit only_appends_send only_appends_app_call
  only_appends_if : appends.

Ltac appends :=
  repeat first
    [ solve [auto with appends]
    | apply only_appends_if
    | apply only_appends_try_catch; [|intros ?]
    | apply only_appends_bind; [|intros ?] ].

Lemma only_appends_handleMessage message : only_appends (handleMessage message).
Proof.
  destruct message as [|m]; [apply only_appends_throw|].
  unfold handleMessage, handleWelcomeMessage, handleMachineDataMessage,
    handleAlarmMessage, handleStatusChangeMessage,
    handleControlResponseMessage, handleSystemNotificationMessage,
    handleMaintenanceAlertMessage, handlePerformanceReportMessage,
    handleSubscriptionConfirmedMessage, handleUnsubscriptionConfirmedMessage,
    handlePingMessage, handleErrorMessage, playAlarmSound, emit_type,
    console_warn, console_error.
  destruct (m_alarm m) as [|[level|]]; appends;
    destruct (m_type m); auto with appends.
Qed.

Lemma only_appends_onMessage JSON_parse frame :
  only_appends (onMessage JSON_parse frame).
Proof.
  unfold onMessage, console_error. appends.
  destruct (JSON_parse frame); [apply only_appends_handleMessage|appends].
Qed.

(** No inbound frame, well-formed or not, makes [onMessage] throw or
    changes the connection state, the subscriptions or the retry state. *)
Lemma onMessage_keeps_state JSON_parse frame s :
  let s' := exec (onMessage JSON_parse frame) s in
  outcome (onMessage JSON_parse frame) s = Normal tt /\
  isConnected s' = isConnected s /\ ws s' = ws s /\
  subscriptions s' = subscriptions s /\
  reconnectAttempts s' = reconnectAttempts s /\
  reconnectInterval s' = reconnectInterval s /\
  timers s' = timers s /\ sockets s' = sockets s.
Proof.
  intros s'. split; [apply onMessage_returns|].
  destruct (only_appends_onMessage JSON_parse frame s) as (r & es & Hrun & _).
  unfold s', exec. by rewrite Hrun.
Qed.

(** ** The subscription set has no duplicates *)

Lemma set_add_NoDup x l : NoDup l -> NoDup (set_add x l).
Proof.
  intros Hl. unfold set_add. case_bool_decide; [done|].
  apply NoDup_app. repeat split; [done| |apply NoDup_singleton].
  intros y Hy Hy'. apply list_elem_of_singleton in Hy'. by subst.
Qed.

Lemma set_delete_NoDup x l : NoDup l -> NoDup (set_delete x l).
Proof. apply NoDup_filter. Qed.

Lemma calls_NoDup cs s :
  NoDup (subscriptions s) -> NoDup (subscriptions (exec (calls cs) s)).
Proof.
  revert s. induction cs as [|[t|t] cs IH]; intros s Hs; [done| |].
  - unfold exec. simpl. erewrite bind_run by apply subscribe_run.
    apply IH. simpl. destruct (send_result s); [by apply set_add_NoDup|done].
  - unfold exec. simpl. erewrite bind_run by apply unsubscribe_run.
    apply IH. simpl. destruct (send_result s); [by apply set_delete_NoDup|done].
Qed.

(** * Further properties of the manager *)

(** ** Listeners: [on], [off], [emit] *)

Lemma console_errors_of_app a b :
  console_errors_of (a ++ b) = console_errors_of a ++ console_errors_of b.
Proof. apply omap_app. Qed.

Lemma console_errors_of_emit_effects ev d hs :
  console_errors_of (emit_effects ev d hs) =
  map (fun _ => ev) (filter (fun h => hthrows h d = true) hs).
Proof.
  induction hs as [|h hs IH]; [done|].
  rewrite emit_effects_cons, console_errors_of_app, IH, filter_cons.
  by destruct (hthrows h d).
Qed.

(** X1: [emit] never throws and changes nothing but the trace.  It calls
    every listener registered under the event exactly once, in registration
    order, whether or not earlier listeners threw, and writes one console
    error per listener that threw. *)
Theorem emit_isolates_listeners ev d s :
  outcome (emit ev d) s = Normal tt /\
  exec (emit ev d) s = add_effects (effects_of (emit ev d) s) s /\
  calls_of (effects_of (emit ev d) s) = calls_to ev d (listeners ev s) /\
  length (console_errors_of (effects_of (emit ev d) s)) =
    length (filter (fun h => hthrows h d = true) (listeners ev s)) /\
  sends_of (effects_of (emit ev d) s) = [].
Proof.
  rewrite (effects_of_add _ _ _ _ _ (emit_run ev d s) eq_refl).
  unfold outcome, exec. rewrite emit_run. simpl.
  rewrite calls_of_emit_effects, console_errors_of_emit_effects, length_map,
    sends_of_emit_effects. done.
Qed.

Lemma on_run ev h s :
  on ev h s =
  (Normal tt,
   set_messageHandlers (<[ev := listeners ev s ++ [h]]> (messageHandlers s)) s).
Proof. reflexivity. Qed.

Lemma listeners_set_messageHandlers ev m s :
  listeners ev (set_messageHandlers m s) = default [] (m !! ev).
Proof. reflexivity. Qed.

(** X2: [on] appends the listener at the end of the event's list, also when
    it is registered there already, and leaves the listeners of every other
    event alone.  A following [emit] of the event calls the earlier
    listeners and then the new one. *)
Theorem on_appends_listener ev h d s :
  outcome (on ev h) s = Normal tt /\
  listeners ev (exec (on ev h) s) = listeners ev s ++ [h] /\
  (forall ev', ev' <> ev ->
     listeners ev' (exec (on ev h) s) = listeners ev' s) /\
  calls_of (effects_of (on ev h >> emit ev d) s) =
    calls_to ev d (listeners ev s) ++ [(hid h, ev, d)].
Proof.
  unfold outcome, exec. rewrite on_run. simpl.
  split; [done|]. split; [|split].
  - rewrite listeners_set_messageHandlers. by rewrite lookup_insert_eq.
  - intros ev' Hne. rewrite listeners_set_messageHandlers.
    by rewrite lookup_insert_ne.
  - erewrite effects_of_add;
      [|erewrite bind_run by apply on_run; apply emit_run|reflexivity].
    rewrite calls_of_emit_effects, listeners_set_messageHandlers,
      lookup_insert_eq. simpl. unfold calls_to. by rewrite map_app.
Qed.

Lemma remove_first_absent h l :
  h ∉ map hid l -> remove_first h l = l.
Proof.
  induction l as [|x l IH]; [done|]. simpl. intros Hnot.
  apply not_elem_of_cons in Hnot as [Hne Hnot].
  destruct (Nat.eqb_spec (hid x) h); [congruence|]. by rewrite IH.
Qed.

Lemma remove_first_app h l1 x l2 :
  h ∉ map hid l1 -> hid x = h ->
  remove_first h (l1 ++ x :: l2) = l1 ++ l2.
Proof.
  intros Hnot Hx. induction l1 as [|y l1 IH]; simpl.
  - by rewrite Hx, Nat.eqb_refl.
  - simpl in Hnot. apply not_elem_of_cons in Hnot as [Hne Hnot].
    destruct (Nat.eqb_spec (hid y) h); [congruence|]. by rewrite IH.
Qed.

Lemma set_messageHandlers_id s : set_messageHandlers (messageHandlers s) s = s.
Proof. by destruct s. Qed.

Lemma off_run_registered ev h l s :
  messageHandlers s !! ev = Some l ->
  off ev h s =
  (Normal tt,
   set_messageHandlers (<[ev := remove_first (hid h) l]> (messageHandlers s)) s).
Proof. intros Hl. unfold off, bind, get. by rewrite Hl. Qed.

(** X3: [off] removes the first registration of the listener under the
    event and no other one; for a listener that is not registered under the
    event, or an event without listeners, it changes nothing. *)
Theorem off_removes_first_registration ev h s :
  outcome (off ev h) s = Normal tt /\
  (hid h ∉ map hid (listeners ev s) -> exec (off ev h) s = s) /\
  (forall l1 x l2,
     listeners ev s = l1 ++ x :: l2 -> hid x = hid h -> hid h ∉ map hid l1 ->
     listeners ev (exec (off ev h) s) = l1 ++ l2) /\
  (forall ev', ev' <> ev ->
     listeners ev' (exec (off ev h) s) = listeners ev' s).
Proof.
  unfold outcome, exec, listeners.
  destruct (messageHandlers s !! ev) as [l|] eqn:Hl.
  - rewrite (off_run_registered ev h l s Hl). simpl.
    split; [done|]. split; [|split].
    + intros Hnot. rewrite remove_first_absent by done.
      rewrite insert_id by done. apply set_messageHandlers_id.
    + intros l1 x l2 -> Hx Hnot. rewrite lookup_insert_eq. simpl.
      by apply remove_first_app.
    + intros ev' Hne. by rewrite lookup_insert_ne.
  - unfold off, bind, get. rewrite Hl. simpl.
    split; [done|]. split; [done|]. split; [|done].
    intros l1 x l2 Hnil. by destruct l1.
Qed.

Lemma off_removes_first_registration_witness :
  (hid (quiet 9) ∉ map hid (listeners "ping" session)) /\
  exec (off "ping" (quiet 9)) session = session.
Proof.
  assert (H : hid (quiet 9) ∉ map hid (listeners "ping" session)).
  { vm_compute. intros Hin. apply list_elem_of_singleton in Hin. discriminate. }
  split; [exact H|].
  exact (proj1 (proj2 (off_removes_first_registration "ping" (quiet 9) session)) H).
Defined.

(** X4: registering a listener that is not yet registered under the event
    and removing it again restores the listeners of every event. *)
Theorem on_off_round_trip ev h s :
  hid h ∉ map hid (listeners ev s) ->
  outcome (on ev h >> off ev h) s = Normal tt /\
  forall ev', listeners ev' (exec (on ev h >> off ev h) s) = listeners ev' s.
Proof.
  intros Hnot.
  assert (Hrun : (on ev h >> off ev h) s =
    (Normal tt,
     set_messageHandlers (<[ev := listeners ev s]> (messageHandlers s)) s)).
  { erewrite bind_run by apply on_run.
    erewrite off_run_registered by (simpl; apply lookup_insert_eq).
    simpl. rewrite insert_insert_eq.
    by rewrite (remove_first_app (hid h) (listeners ev s) h []), app_nil_r. }
  unfold outcome, exec. rewrite Hrun. simpl. split; [done|].
  intros ev'. rewrite listeners_set_messageHandlers.
  destruct (decide (ev' = ev)) as [->|Hne].
  - by rewrite lookup_insert_eq.
  - by rewrite lookup_insert_ne.
Qed.

Lemma on_off_round_trip_witness :
  (hid (quiet 9) ∉ map hid (listeners "ping" session)) /\
  listeners "ping" (exec (on "ping" (quiet 9) >> off "ping" (quiet 9)) session)
  = listeners "ping" session.
Proof.
  assert (H : hid (quiet 9) ∉ map hid (listeners "ping" session)).
  { vm_compute. intros Hin. apply list_elem_of_singleton in Hin. discriminate. }
  split; [exact H|].
  exact (proj2 (on_off_round_trip "ping" (quiet 9) session H) "ping").
Defined.

(** ** [send] and the subscription calls *)

(** X5: [send] never throws and changes nothing but the trace.  It
    transmits the message, once, exactly when the manager is connected, its
    current socket is open and the message can be serialised, and then
    returns [true].  A message [JSON.stringify] rejects is caught by the
    [try] of [send]: on a manager that is connected and holds a socket it
    returns [false], transmits nothing and writes one console error.  It
    also returns [false] without transmitting when the manager is not
    connected or holds no socket (one console warning), or when [ws.send]
    throws because the socket is still connecting (one console error); on a
    closing or closed socket a serialisable message is dropped silently and
    [send] returns [true]. *)
Theorem send_contract f s :
  (exists b, outcome (send f) s = Normal b) /\
  exec (send f) s = add_effects (effects_of (send f) s) s /\
  (forall i, connected_on s i -> serialisable f = true ->
     outcome (send f) s = Normal true /\
     effects_of (send f) s = [Sent i f] /\
     sends_of (effects_of (send f) s) = [(i, f)]) /\
  (forall i, isConnected s = true -> ws s = Some i ->
     serialisable f = false ->
     outcome (send f) s = Normal false /\
     effects_of (send f) s = [Console LError "send failed"] /\
     sends_of (effects_of (send f) s) = [] /\
     console_errors_of (effects_of (send f) s) = ["send failed"]) /\
  (isConnected s = false \/ ws s = None ->
     outcome (send f) s = Normal false /\
     sends_of (effects_of (send f) s) = [] /\
     console_warnings_of (effects_of (send f) s) = ["not connected"]) /\
  (forall i, isConnected s = true -> ws s = Some i ->
     sockets s !! i = Some CONNECTING ->
     outcome (send f) s = Normal false /\
     sends_of (effects_of (send f) s) = [] /\
     console_errors_of (effects_of (send f) s) = ["send failed"]) /\
  (forall i, isConnected s = true -> ws s = Some i ->
     serialisable f = true ->
     sockets s !! i = Some CLOSING \/ sockets s !! i = Some CLOSED ->
     outcome (send f) s = Normal true /\
     effects_of (send f) s = []) /\
  (sends_of (effects_of (send f) s) <> [] ->
     serialisable f = true /\ exists i, connected_on s i).
Proof.
  rewrite (effects_of_add _ _ _ _ _ (send_run f s) eq_refl).
  unfold outcome, exec. rewrite send_run. simpl.
  split; [by eexists|]. split; [done|].
  unfold send_result, send_effects, connected_on.
  split; [|split; [|split; [|split; [|split]]]].
  - intros i (-> & -> & ->) ->. done.
  - intros i -> -> ->. done.
  - intros [->| ->]; [by rewrite andb_false_r|].
    destruct (isConnected s); by rewrite andb_false_r.
  - intros i -> -> ->. rewrite andb_false_r. by destruct (serialisable f).
  - intros i -> -> -> [-> | ->]; done.
  - destruct (isConnected s); [|done].
    destruct (ws s) as [i|]; [|done].
    destruct (serialisable f); [|done].
    destruct (sockets s !! i) as [[]|] eqn:Hs; try done.
    intros _. split; [done|]. by exists i.
Qed.

Lemma send_contract_witness :
  isConnected session = true /\ ws session = Some 0 /\
  serialisable OUnserialisable = false /\
  outcome (send OUnserialisable) session = Normal false /\
  effects_of (send OUnserialisable) session = [Console LError "send failed"].
Proof.
  split; [reflexivity|]. split; [reflexivity|]. split; [reflexivity|].
  pose proof (proj1 (proj2 (proj2 (proj2
                (send_contract OUnserialisable session))))
                0 eq_refl eq_refl eq_refl) as H.
  exact (conj (proj1 H) (proj1 (proj2 H))).
Defined.

Lemma set_delete_add_fresh t l : t ∉ l -> set_delete t (set_add t l) = l.
Proof.
  intros Hnot. rewrite set_add_fresh by done. unfold set_delete.
  rewrite filter_app, filter_cons_False, filter_nil, app_nil_r by (intros H; done).
  induction l as [|x l IH]; [done|].
  apply not_elem_of_cons in Hnot as [Hne Hnot].
  rewrite filter_cons_True by congruence. by rewrite IH.
Qed.

Lemma subscribe_run_connected t s i :
  connected_on s i ->
  subscribe t s =
  (Normal true,
   set_subscriptions (set_add t (subscriptions s))
     (add_effects [Sent i (OSubscribe t)] s)).
Proof.
  intros Hc. rewrite subscribe_run.
  by rewrite (send_result_connected s i Hc), (send_effects_connected _ s i Hc).
Qed.

Lemma unsubscribe_run_connected t s i :
  connected_on s i ->
  unsubscribe t s =
  (Normal true,
   set_subscriptions (set_delete t (subscriptions s))
     (add_effects [Sent i (OUnsubscribe t)] s)).
Proof.
  intros Hc. rewrite unsubscribe_run.
  by rewrite (send_result_connected s i Hc), (send_effects_connected _ s i Hc).
Qed.

(** X6: on an open connection, subscribing to a topic the set does not
    hold and unsubscribing from it again restores the set; one subscribe
    and one unsubscribe request are sent, in that order. *)
Theorem subscribe_unsubscribe_round_trip t s i :
  connected_on s i ->
  t ∉ subscriptions s ->
  let m := subscribe t >> unsubscribe t in
  outcome m s = Normal true /\
  subscriptions (exec m s) = subscriptions s /\
  sends_of (effects_of m s) = [(i, OSubscribe t); (i, OUnsubscribe t)].
Proof.
  intros Hc Hnot m.
  assert (Hrun : m s =
    (Normal true,
     set_subscriptions (subscriptions s)
       (add_effects [Sent i (OSubscribe t); Sent i (OUnsubscribe t)] s))).
  { unfold m. rewrite (bind_run _ _ _ _ _ (subscribe_run_connected t s i Hc)).
    erewrite (unsubscribe_run_connected _ _ i) by exact Hc.
    simpl. rewrite set_delete_add_fresh by done.
    unfold add_effects, set_subscriptions, set_trace. simpl.
    by rewrite <- app_assoc. }
  rewrite (effects_of_trace _ _ [Sent i (OSubscribe t); Sent i (OUnsubscribe t)])
    by (unfold exec; by rewrite Hrun).
  unfold outcome, exec. by rewrite Hrun.
Qed.

Lemma subscribe_unsubscribe_round_trip_witness :
  connected_on session 0 /\ ("M-01" ∉ subscriptions session) /\
  subscriptions (exec (subscribe "M-01" >> unsubscribe "M-01") session)
  = subscriptions session.
Proof.
  assert (Hc : connected_on session 0) by (vm_compute; auto).
  assert (Hn : "M-01" ∉ subscriptions session) by (vm_compute; apply not_elem_of_nil).
  split; [exact Hc|]. split; [exact Hn|].
  exact (proj1 (proj2 (subscribe_unsubscribe_round_trip "M-01" session 0 Hc Hn))).
Defined.

(** X7: on an open connection, subscribing twice to a topic sends two
    subscribe requests but the set holds the topic once, at the position of
    its first insertion. *)
Theorem subscribe_twice t s i :
  connected_on s i ->
  let m := subscribe t >> subscribe t in
  outcome m s = Normal true /\
  subscriptions (exec m s) = set_add t (subscriptions s) /\
  subscriptions (exec m s) = subscriptions (exec (subscribe t) s) /\
  sends_of (effects_of m s) = [(i, OSubscribe t); (i, OSubscribe t)].
Proof.
  intros Hc m.
  assert (Hrun : m s =
    (Normal true,
     set_subscriptions (set_add t (subscriptions s))
       (add_effects [Sent i (OSubscribe t); Sent i (OSubscribe t)] s))).
  { unfold m. rewrite (bind_run _ _ _ _ _ (subscribe_run_connected t s i Hc)).
    erewrite (subscribe_run_connected _ _ i) by exact Hc.
    simpl. rewrite (set_add_elem t (set_add t _))
      by (apply elem_of_set_add; by left).
    unfold add_effects, set_subscriptions, set_trace. simpl.
    by rewrite <- app_assoc. }
  rewrite (effects_of_trace _ _ [Sent i (OSubscribe t); Sent i (OSubscribe t)])
    by (unfold exec; by rewrite Hrun).
  unfold outcome, exec. rewrite Hrun, (subscribe_run_connected t s i Hc). done.
Qed.

Lemma subscribe_twice_witness :
  connected_on session 0 /\
  subscriptions (exec (subscribe "M-01" >> subscribe "M-01") session) = ["M-01"].
Proof.
  assert (Hc : connected_on session 0) by (vm_compute; auto).
  split; [exact Hc|].
  exact (proj1 (proj2 (subscribe_twice "M-01" session 0 Hc))).
Defined.

Lemma subscribe_each_offline topics s :
  isConnected s = false ->
  subscribe_each topics s =
  (Normal tt,
   add_effects (map (fun _ => Console LWarn "not connected") topics) s).
Proof.
  intros Hc. revert s Hc. induction topics as [|t rest IH]; intros s Hc.
  - simpl. by rewrite add_effects_nil.
  - simpl. erewrite bind_run by apply subscribe_run.
    rewrite (send_result_disconnected s Hc), (send_effects_disconnected _ s Hc).
    simpl. rewrite IH by done. by rewrite add_effects_app.
Qed.

(** X8: [resubscribe] on a manager that is not connected sends nothing and
    keeps the set: each topic only costs one console warning. *)
Theorem resubscribe_offline s :
  isConnected s = false ->
  outcome resubscribe s = Normal tt /\
  subscriptions (exec resubscribe s) = subscriptions s /\
  sends_of (effects_of resubscribe s) = [] /\
  length (console_warnings_of (effects_of resubscribe s)) =
    length (subscriptions s).
Proof.
  intros Hc.
  assert (Hrun : resubscribe s =
    (Normal tt,
     add_effects (map (fun _ => Console LWarn "not connected") (subscriptions s)) s)).
  { unfold resubscribe. erewrite bind_run by reflexivity.
    by apply subscribe_each_offline. }
  rewrite (effects_of_add _ _ _ _ _ Hrun eq_refl).
  unfold outcome, exec. rewrite Hrun. simpl.
  split; [done|]. split; [done|].
  generalize (subscriptions s). intros l.
  split; induction l as [|t l IH]; simpl; [done|done|done|by f_equal].
Qed.

Lemma resubscribe_offline_witness :
  isConnected offline_subscribed = false /\
  sends_of (effects_of resubscribe offline_subscribed) = [].
Proof.
  split; [reflexivity|].
  exact (proj1 (proj2 (proj2 (resubscribe_offline offline_subscribed eq_refl)))).
Defined.

(** ** Dispatch of the other messages *)

Lemma is_case_none n : is_case None n = false.
Proof. reflexivity. Qed.

Lemma console_warnings_of_app a b :
  console_warnings_of (a ++ b) = console_warnings_of a ++ console_warnings_of b.
Proof. apply omap_app. Qed.

Lemma console_warnings_of_emit_effects ev d hs :
  console_warnings_of (emit_effects ev d hs) = [].
Proof.
  induction hs as [|h hs IH]; [done|].
  rewrite emit_effects_cons, console_warnings_of_app, IH.
  by destruct (hthrows h d).
Qed.

Lemma handleMessage_unrecognised_run m s :
  (forall n, n ∈ switch_cases -> m_type m <> Some n) ->
  handleMessage (JMsg m) s =
  (Normal tt,
   add_effects (Console LWarn "unknown message type"
                :: emit_effects "message" (DMessage m) (listeners "message" s)
                ++ typed_effects (m_type m) (DMessage m) s) s).
Proof.
  intros Hne.
  assert (Hcase : forall n, n ∈ switch_cases -> is_case (m_type m) n = false).
  { intros n Hn. unfold is_case. apply bool_decide_eq_false_2. by apply Hne. }
  unfold handleMessage.
  rewrite !Hcase by (apply list_elem_of_In; simpl; tauto).
  unfold console_warn. erewrite bind_run by apply effect_run.
  erewrite bind_run by apply emit_run.
  unfold emit_type, typed_effects. destruct (m_type m) as [t|].
  - rewrite emit_run. by rewrite !add_effects_app.
  - unfold ret. by rewrite !add_effects_app, app_nil_r.
Qed.

(** X9: a message whose type has no case in the switch, or no type at
    all, is tolerated: the dispatch returns normally, writes one console
    warning, sends nothing, calls every wildcard listener once and then
    every listener registered under the type once, and changes nothing but
    the trace. *)
Theorem unrecognised_type_dispatch m s :
  (forall n, n ∈ switch_cases -> m_type m <> Some n) ->
  let es := effects_of (handleMessage (JMsg m)) s in
  outcome (handleMessage (JMsg m)) s = Normal tt /\
  exec (handleMessage (JMsg m)) s = add_effects es s /\
  console_warnings_of es = ["unknown message type"] /\
  sends_of es = [] /\
  calls_of es =
    calls_to "message" (DMessage m) (listeners "message" s) ++
    match m_type m with
    | Some t => calls_to t (DMessage m) (listeners t s)
    | None => []
    end.
Proof.
  intros Hne es. pose proof (handleMessage_unrecognised_run m s Hne) as Hrun.
  unfold es. rewrite (effects_of_add _ _ _ _ _ Hrun eq_refl).
  unfold outcome, exec. rewrite Hrun. simpl.
  split; [done|]. split; [done|].
  rewrite console_warnings_of_app, sends_of_app, calls_of_app,
    console_warnings_of_emit_effects, sends_of_emit_effects,
    calls_of_emit_effects.
  unfold typed_effects. destruct (m_type m) as [t|]; simpl.
  - by rewrite console_warnings_of_emit_effects, sends_of_emit_effects,
      calls_of_emit_effects.
  - done.
Qed.

Lemma unrecognised_type_dispatch_witness :
  (forall n, n ∈ switch_cases -> m_type (message_of_type "telemetry") <> Some n) /\
  calls_of (effects_of (handleMessage (JMsg (message_of_type "telemetry"))) session)
  = [(1, "message", DMessage (message_of_type "telemetry"))].
Proof.
  assert (H : forall n, n ∈ switch_cases ->
                        m_type (message_of_type "telemetry") <> Some n).
  { intros n Hn. apply list_elem_of_In in Hn. simpl in Hn.
    intros [= <-]. repeat (destruct Hn as [Hn|Hn]; [discriminate|]). done. }
  split; [exact H|].
  exact (proj2 (proj2 (proj2 (proj2
           (unrecognised_type_dispatch (message_of_type "telemetry") session H))))).
Defined.

Lemma handleMessage_error_run m s :
  m_type m = Some "error" ->
  handleMessage (JMsg m) s =
  (Normal tt,
   add_effects (Console LError "server error"
                :: app_effects "showErrorNotification" s
                ++ emit_effects "server_error" (DMessage m) (listeners "server_error" s)
                ++ emit_effects "message" (DMessage m) (listeners "message" s)
                ++ emit_effects "error" (DMessage m) (listeners "error" s)) s).
Proof.
  intros Ht. switch_on Ht. unfold handleErrorMessage, emit_type, console_error.
  erewrite bind_run;
    [|erewrite bind_run by apply effect_run;
      erewrite bind_run by apply app_call_run; apply emit_run].
  erewrite bind_run by apply emit_run.
  rewrite emit_run. rewrite !add_effects_app. simpl. by rewrite <- !app_assoc.
Qed.

(** X10: a server message of type ["error"] is reported on the console and
    delivered, in this order, to the listeners of ["server_error"], to the
    wildcard listeners and to the listeners of ["error"], each called once;
    nothing is sent. *)
Theorem error_message_dispatch m s :
  m_type m = Some "error" ->
  let es := effects_of (handleMessage (JMsg m)) s in
  outcome (handleMessage (JMsg m)) s = Normal tt /\
  console_errors_of (take 1 es) = ["server error"] /\
  sends_of es = [] /\
  calls_of es =
    calls_to "server_error" (DMessage m) (listeners "server_error" s) ++
    calls_to "message" (DMessage m) (listeners "message" s) ++
    calls_to "error" (DMessage m) (listeners "error" s).
Proof.
  intros Ht es. pose proof (handleMessage_error_run m s Ht) as Hrun.
  unfold es. rewrite (effects_of_add _ _ _ _ _ Hrun eq_refl).
  unfold outcome. rewrite Hrun. simpl.
  split; [done|]. split; [done|].
  rewrite !sends_of_app, !calls_of_app, !sends_of_emit_effects,
    !calls_of_emit_effects, calls_of_app_effects.
  split; [|done].
  unfold app_effects. destruct (window_app s); [case_bool_decide|]; done.
Qed.

Lemma error_message_dispatch_witness :
  m_type (message_of_type "error") = Some "error" /\
  calls_of (effects_of (handleMessage (JMsg (message_of_type "error"))) session)
  = [(1, "message", DMessage (message_of_type "error"))].
Proof.
  split; [reflexivity|].
  exact (proj2 (proj2 (proj2
           (error_message_dispatch (message_of_type "error") session eq_refl)))).
Defined.

Lemma bind_throw_run {A B} (m : M A) (k : A -> M B) s e s' :
  m s = (Thrown e, s') -> bind m k s = (Thrown e, s').
Proof. intros H. unfold bind. by rewrite H. Qed.

Lemma handleMessage_alarm_missing_run m s :
  m_type m = Some "alarm" -> m_alarm m = AlarmAbsent ->
  handleMessage (JMsg m) s =
  (Thrown "TypeError", add_effects (app_effects "showAlarmNotification" s) s).
Proof.
  intros Ht Ha. switch_on Ht. unfold handleAlarmMessage. rewrite Ha.
  apply bind_throw_run.
  erewrite bind_run by apply app_call_run. reflexivity.
Qed.

Lemma playAlarmSound_run level s :
  playAlarmSound level s =
  (Normal tt, add_effects (alarm_sound_effects level s) s).
Proof.
  unfold playAlarmSound, alarm_sound_effects, try_catch, bind, get.
  destruct (audio_available s), level; simpl; by rewrite ?add_effects_nil.
Qed.

Lemma handleMessage_alarm_run m level s :
  m_type m = Some "alarm" -> m_alarm m = AlarmValue level ->
  handleMessage (JMsg m) s =
  (Normal tt,
   add_effects (app_effects "showAlarmNotification" s
                ++ alarm_sound_effects level s
                ++ emit_effects "alarm" (DMessage m) (listeners "alarm" s)
                ++ emit_effects "message" (DMessage m) (listeners "message" s)
                ++ emit_effects "alarm" (DMessage m) (listeners "alarm" s)) s).
Proof.
  intros Ht Ha. switch_on Ht. unfold handleAlarmMessage, emit_type. rewrite Ha.
  erewrite bind_run by
    (erewrite bind_run by apply app_call_run;
     erewrite bind_run by apply playAlarmSound_run;
     apply emit_run).
  erewrite bind_run by apply emit_run.
  rewrite emit_run. by rewrite !add_effects_app, <- ?app_assoc.
Qed.

(** X11: a frame that parses to [null], and an alarm message whose [alarm]
    property is missing or [null], reach no listener at all, wildcard
    listeners included: the dispatch throws a TypeError before any [emit],
    [onMessage] catches it, reports it on the console and returns; nothing
    is sent.  An alarm message whose [alarm] property holds any other value
    is delivered: a sound that cannot be played costs one console warning,
    and the listeners of [alarm], those of [message] and those of [alarm]
    again are called, in this order. *)
Theorem undeliverable_frames JSON_parse frame s :
  let es := effects_of (onMessage JSON_parse frame) s in
  ((JSON_parse frame = Some JNull \/
    exists m, JSON_parse frame = Some (JMsg m) /\
              m_type m = Some "alarm" /\ m_alarm m = AlarmAbsent) ->
   outcome (onMessage JSON_parse frame) s = Normal tt /\
   exec (onMessage JSON_parse frame) s = add_effects es s /\
   calls_of es = [] /\
   sends_of es = [] /\
   console_errors_of es = ["parse failed"]) /\
  (forall m level,
     JSON_parse frame = Some (JMsg m) ->
     m_type m = Some "alarm" -> m_alarm m = AlarmValue level ->
     outcome (onMessage JSON_parse frame) s = Normal tt /\
     es = app_effects "showAlarmNotification" s
          ++ alarm_sound_effects level s
          ++ emit_effects "alarm" (DMessage m) (listeners "alarm" s)
          ++ emit_effects "message" (DMessage m) (listeners "message" s)
          ++ emit_effects "alarm" (DMessage m) (listeners "alarm" s) /\
     calls_of es =
       calls_to "alarm" (DMessage m) (listeners "alarm" s) ++
       calls_to "message" (DMessage m) (listeners "message" s) ++
       calls_to "alarm" (DMessage m) (listeners "alarm" s)).
Proof.
  intros es. split.
  - intros H.
    assert (Hrun : exists pre,
               calls_of pre = [] /\ sends_of pre = [] /\ console_errors_of pre = [] /\
               onMessage JSON_parse frame s =
               (Normal tt, add_effects (pre ++ [Console LError "parse failed"]) s)).
    { destruct H as [Hnull|(m & Hm & Ht & Ha)].
      - exists []. repeat split. unfold onMessage, try_catch. by rewrite Hnull.
      - exists (app_effects "showAlarmNotification" s).
        split; [apply calls_of_app_effects|].
        split; [|split].
        + unfold app_effects. destruct (window_app s); [case_bool_decide|]; done.
        + unfold app_effects. destruct (window_app s); [case_bool_decide|]; done.
        + unfold onMessage, try_catch. rewrite Hm.
          rewrite (handleMessage_alarm_missing_run m s Ht Ha).
          unfold console_error. rewrite effect_run. by rewrite add_effects_app. }
    destruct Hrun as (pre & Hc & Hs & He & Hrun).
    unfold es. rewrite (effects_of_add _ _ _ _ _ Hrun eq_refl).
    unfold outcome, exec. rewrite Hrun. simpl.
    rewrite calls_of_app, sends_of_app, console_errors_of_app, Hc, Hs, He. done.
  - intros m level Hm Ht Ha.
    assert (Hrun : onMessage JSON_parse frame s =
                   (Normal tt,
                    add_effects
                      (app_effects "showAlarmNotification" s
                       ++ alarm_sound_effects level s
                       ++ emit_effects "alarm" (DMessage m) (listeners "alarm" s)
                       ++ emit_effects "message" (DMessage m) (listeners "message" s)
                       ++ emit_effects "alarm" (DMessage m) (listeners "alarm" s)) s)).
    { unfold onMessage, try_catch. rewrite Hm.
      by rewrite (handleMessage_alarm_run m level s Ht Ha). }
    unfold es. rewrite (effects_of_add _ _ _ _ _ Hrun eq_refl).
    unfold outcome. rewrite Hrun. split; [done|]. split; [done|].
    rewrite !calls_of_app, !calls_of_emit_effects, calls_of_app_effects.
    unfold alarm_sound_effects. by destruct (audio_available s), level.
Qed.

Lemma undeliverable_frames_witness :
  (let parse := fun _ : string => Some (JMsg alarm_without_object) in
   m_alarm alarm_without_object = AlarmAbsent /\
   calls_of (effects_of (onMessage parse "frame") session) = [] /\
   console_errors_of (effects_of (onMessage parse "frame") session)
   = ["parse failed"]) /\
  (let parse := fun _ : string => Some (JMsg alarm_with_number) in
   m_alarm alarm_with_number = AlarmValue None /\
   effects_of (onMessage parse "frame") session
   = [ Console LWarn "alarm sound failed";
       Called 1 "message" (DMessage alarm_with_number) ]).
Proof.
  split.
  - split; [reflexivity|].
    pose proof (proj1 (undeliverable_frames
                         (fun _ => Some (JMsg alarm_without_object))
                         "frame" session)
                  (or_intror (ex_intro _ alarm_without_object
                                (conj eq_refl (conj eq_refl eq_refl))))) as H.
    exact (conj (proj1 (proj2 (proj2 H))) (proj2 (proj2 (proj2 (proj2 H))))).
  - split; [reflexivity|].
    exact (proj1 (proj2 (proj2 (undeliverable_frames
                                  (fun _ => Some (JMsg alarm_with_number))
                                  "frame" session)
                           alarm_with_number None eq_refl eq_refl eq_refl))).
Defined.

(** X12: whatever the frame, [onMessage] returns normally, what
    [getConnectionState()] reports is the same before and after, listeners,
    sockets and pending timers are untouched, and the dispatch neither opens
    nor closes a socket nor sets a timer. *)
Theorem dispatch_keeps_connection_state JSON_parse frame s :
  let s' := exec (onMessage JSON_parse frame) s in
  outcome (onMessage JSON_parse frame) s = Normal tt /\
  getConnectionState s' = getConnectionState s /\
  messageHandlers s' = messageHandlers s /\
  ws s' = ws s /\ sockets s' = sockets s /\ timers s' = timers s /\
  reconnectInterval s' = reconnectInterval s /\
  Forall passive (effects_of (onMessage JSON_parse frame) s).
Proof.
  intros s'. split; [apply onMessage_returns|].
  destruct (only_appends_onMessage JSON_parse frame s) as (r & es & Hrun & Hes).
  rewrite (effects_of_add _ _ _ _ _ Hrun eq_refl).
  unfold s', exec. by rewrite Hrun.
Qed.

(** ** Closing and failing to connect *)

Lemma sockets_created_of_app a b :
  sockets_created_of (a ++ b) = sockets_created_of a ++ sockets_created_of b.
Proof. apply omap_app. Qed.

Lemma passive_quiet es :
  Forall passive es -> timers_set_of es = [] /\ sockets_created_of es = [].
Proof.
  induction 1 as [|e es He _ [IH1 IH2]]; [done|].
  destruct e; simpl in *; done.
Qed.

(** X13: a close with the normal-closure code 1000 clears the connected
    flag and notifies the ["disconnected"] listeners, and schedules no
    retry: timers, attempt counter and delay are as before.  The reference
    to the closed socket is kept. *)
Theorem normal_closure_schedules_nothing s :
  let s' := exec (onClose 1000) s in
  let es := effects_of (onClose 1000) s in
  outcome (onClose 1000) s = Normal tt /\
  isConnected s' = false /\
  timers s' = timers s /\ timers_set_of es = [] /\
  reconnectAttempts s' = reconnectAttempts s /\
  reconnectInterval s' = reconnectInterval s /\
  ws s' = ws s /\ subscriptions s' = subscriptions s /\
  calls_of es =
    calls_to "disconnected" (DClose 1000) (listeners "disconnected" s).
Proof.
  intros s' es.
  assert (Hrun : onClose 1000 s =
    (Normal tt,
     add_effects (emit_effects "disconnected" (DClose 1000)
                    (listeners "disconnected" s))
       (set_isConnected false s))) by (by rewrite onClose_run).
  unfold es, s'. rewrite (effects_of_add _ _ _ _ _ Hrun eq_refl).
  unfold outcome, exec. rewrite Hrun. simpl.
  by rewrite timers_set_of_emit_effects, calls_of_emit_effects.
Qed.



(** ** Histories: what no sequence of calls and events can do *)

Lemma subscribe_each_members topics s :
  (forall t, t ∈ topics -> t ∈ subscriptions s) ->
  exists es,
    subscribe_each topics s = (Normal tt, add_effects es s) /\ Forall passive es.
Proof.
  revert s. induction topics as [|t rest IH]; intros s Hin.
  - exists []. simpl. by rewrite add_effects_nil.
  - simpl. erewrite bind_run by apply subscribe_run.
    assert (Hs : (let s' := add_effects (send_effects (OSubscribe t) s) s in
                  if send_result s
                  then set_subscriptions (set_add t (subscriptions s)) s'
                  else s')
                 = add_effects (send_effects (OSubscribe t) s) s).
    { simpl. destruct (send_result s); [|done].
      rewrite set_add_elem by (apply Hin; left).
      apply (set_subscriptions_id (add_effects _ s)). }
    rewrite Hs. destruct (IH (add_effects (send_effects (OSubscribe t) s) s))
      as (es & Hrun & Hes).
    { intros t' Ht'. apply Hin. by right. }
    exists (send_effects (OSubscribe t) s ++ es).
    rewrite Hrun, add_effects_app. split; [done|].
    apply Forall_app. split; [apply passive_send_effects|done].
Qed.

(** [onOpen] on any state, whatever the socket the manager holds. *)
Lemma onOpen_any_run event s :
  exists es,
    onOpen event s =
    (Normal tt,
     add_effects es (set_reconnectAttempts 0 (set_isConnected true s))) /\
    Forall passive es.
Proof.
  unfold onOpen. do 2 (erewrite bind_run by reflexivity).
  set (s0 := set_reconnectAttempts 0 (set_isConnected true s)).
  destruct (subscribe_each_members (subscriptions s0) s0) as (es & Hrun & Hes);
    [done|].
  exists (es ++ emit_effects "connected" event (listeners "connected" s)).
  erewrite bind_run
    by (unfold resubscribe; erewrite bind_run by reflexivity; exact Hrun).
  rewrite emit_run, add_effects_app. split; [done|].
  apply Forall_app. split; [done|apply passive_emit_effects].
Qed.

Lemma Forall_nil_timers (q : Q) : Forall (fun d => d = q) [].
Proof. constructor. Qed.

Ltac spec_split :=
  repeat split; auto; try lia; try done; try (by repeat constructor);
  try (rewrite ?length_app, ?length_insert; simpl; lia).

Lemma step_spec_passive a s es :
  is_open a = false ->
  Forall passive es ->
  step_spec a s (add_effects es s) es.
Proof.
  intros Ha Hes. destruct (passive_quiet es Hes) as [Ht Hc].
  unfold step_spec. rewrite Ha, Ht, Hc. simpl.
  spec_split.
Qed.

Lemma sockets_created_of_schedule_effects s :
  sockets_created_of (schedule_effects s) = [].
Proof.
  unfold schedule_effects, gave_up_effects. destruct (Nat.ltb _ _); [done|].
  simpl. apply (passive_quiet _ (passive_emit_effects _ _ _)).
Qed.

Lemma step_spec_schedule a s :
  is_open a = false ->
  step_spec a s (after_scheduleReconnect s) (schedule_effects s).
Proof.
  intros Ha. unfold step_spec.
  rewrite Ha, after_scheduleReconnect_trace, sockets_created_of_schedule_effects.
  destruct (after_scheduleReconnect_frame s) as (_ & _ & Hsub & Hsock & Hv & Hh & Hm).
  simpl in Hsub, Hsock, Hv, Hh, Hm. rewrite Hsub, Hsock, Hv, Hh, Hm.
  unfold after_scheduleReconnect, schedule_effects, gave_up_effects.
  destruct (Nat.ltb_spec (reconnectAttempts s) (maxReconnectAttempts s)); simpl.
  - spec_split.
  - rewrite timers_set_of_emit_effects. spec_split.
Qed.

(** Effects that the manager's bookkeeping does not see may come before
    those of an action. *)
Lemma step_spec_prefix a s0 s s' pre es :
  trace s = trace s0 ++ pre -> Forall passive pre ->
  maxReconnectAttempts s = maxReconnectAttempts s0 ->
  endpoint_valid s = endpoint_valid s0 ->
  reconnectAttempts s = reconnectAttempts s0 ->
  reconnectInterval s = reconnectInterval s0 ->
  subscriptions s = subscriptions s0 ->
  messageHandlers s = messageHandlers s0 ->
  length (sockets s) = length (sockets s0) ->
  is_open a = false ->
  step_spec a s s' es -> step_spec a s0 s' (pre ++ es).
Proof.
  intros Htr Hpre Hm Hv Ha Hi Hsub Hh Hsock Hopen.
  destruct (passive_quiet pre Hpre) as [Ht Hc].
  unfold step_spec. rewrite Hopen, Htr, Hm, Hv, Ha, Hi, Hsub, Hh, Hsock.
  rewrite timers_set_of_app, sockets_created_of_app, Ht, Hc. simpl.
  intros (-> & ? & ? & ? & ? & ? & ? & ? & ? & ? & ? & ?).
  rewrite <- app_assoc. repeat split; auto.
Qed.

(** Every action returns normally, and relates the states as [step_spec]
    says. *)
Lemma step_summary JSON_parse a s :
  exists s' es,
    step JSON_parse a s = (Normal tt, s') /\ step_spec a s s' es.
Proof.
  destruct a as [| |f|t|t|ev h|ev h|i|frame|i code| |k]; simpl.
  - (* connect *)
    rewrite connect_run. unfold after_connect.
    destruct (endpoint_valid s) eqn:Hv.
    + eexists _, [NewSocket (length (sockets s))]. split; [reflexivity|].
      unfold step_spec. simpl. spec_split.
    + eexists _, _. split; [reflexivity|].
      apply (step_spec_prefix AConnect s
               (add_effects [Console LError "connect failed"] s)); try done.
      * repeat constructor.
      * by apply step_spec_schedule.
  - (* disconnect *)
    rewrite disconnect_run. unfold after_disconnect.
    destruct (ws s) as [i|] eqn:Hw.
    + eexists _, [CloseSocket i]. split; [reflexivity|].
      unfold step_spec.
      destruct (sockets s !! i) as [[]|]; simpl; rewrite ?length_insert;
        spec_split.
    + eexists _, []. split; [reflexivity|].
      unfold step_spec. simpl. rewrite app_nil_r.
      spec_split.
  - (* send *)
    erewrite bind_run by apply send_run.
    eexists _, _. split; [reflexivity|].
    apply step_spec_passive; [done|apply passive_send_effects].
  - (* subscribe *)
    erewrite bind_run by apply subscribe_run.
    eexists _, (send_effects (OSubscribe t) s). split; [reflexivity|].
    destruct (passive_quiet _ (passive_send_effects (OSubscribe t) s)) as [Ht Hc].
    unfold step_spec. simpl. rewrite Ht, Hc.
    destruct (send_result s); simpl; spec_split.
  - (* unsubscribe *)
    erewrite bind_run by apply unsubscribe_run.
    eexists _, (send_effects (OUnsubscribe t) s). split; [reflexivity|].
    destruct (passive_quiet _ (passive_send_effects (OUnsubscribe t) s)) as [Ht Hc].
    unfold step_spec. simpl. rewrite Ht, Hc.
    destruct (send_result s); simpl; spec_split.
  - (* on *)
    rewrite on_run. eexists _, []. split; [reflexivity|].
    unfold step_spec. simpl. rewrite app_nil_r.
    spec_split.
  - (* off *)
    unfold off, bind, get.
    destruct (messageHandlers s !! ev) as [l|]; simpl;
      (eexists _, []; split; [reflexivity|]);
      unfold step_spec; simpl; rewrite app_nil_r;
      spec_split.
  - (* a socket opens *)
    unfold socket_opens. erewrite bind_run by reflexivity.
    set (s0 := set_sockets (<[i:=OPEN]> (sockets s)) s).
    destruct (onOpen_any_run DOpen s0) as (es & Hrun & Hes).
    rewrite Hrun. eexists _, es. split; [reflexivity|].
    destruct (passive_quiet es Hes) as [Ht Hc].
    unfold step_spec. simpl. rewrite Ht, Hc, length_insert.
    spec_split.
  - (* a frame arrives *)
    pose proof (onMessage_returns JSON_parse frame s) as Hret.
    destruct (only_appends_onMessage JSON_parse frame s) as (r & es & Hrun & Hes).
    unfold outcome in Hret. rewrite Hrun in Hret. simpl in Hret. subst r.
    rewrite Hrun. eexists _, es. split; [reflexivity|].
    by apply step_spec_passive.
  - (* a socket closes *)
    unfold socket_closes. erewrite bind_run by reflexivity.
    set (s0 := set_sockets (<[i:=CLOSED]> (sockets s)) s).
    rewrite onClose_run. unfold after_onClose. case_bool_decide.
    + eexists _, _. split; [reflexivity|].
      apply (step_spec_prefix (ESocketCloses i code) s
               (add_effects (emit_effects "disconnected" (DClose code)
                               (listeners "disconnected" s0))
                            (set_isConnected false s0))); try done.
      * apply passive_emit_effects.
      * simpl. by rewrite length_insert.
      * by apply step_spec_schedule.
    + eexists _, (emit_effects "disconnected" (DClose code)
                    (listeners "disconnected" s0)).
      split; [reflexivity|].
      destruct (passive_quiet _ (passive_emit_effects "disconnected"
                  (DClose code) (listeners "disconnected" s0))) as [Ht Hc].
      unfold step_spec. simpl. rewrite Ht, Hc, length_insert.
      spec_split.
  - (* a socket reports an error *)
    unfold onError, console_error. erewrite bind_run by apply effect_run.
    rewrite emit_run, add_effects_app. eexists _, _. split; [reflexivity|].
    apply step_spec_passive; [done|].
    constructor; [done|apply passive_emit_effects].
  - (* a timer expires *)
    unfold timer_fires. erewrite bind_run by reflexivity.
    set (s0 := set_timers (delete k (timers s)) s).
    rewrite connect_run. unfold after_connect.
    change (endpoint_valid s0) with (endpoint_valid s).
    destruct (endpoint_valid s) eqn:Hv.
    + eexists _, [NewSocket (length (sockets s))]. split; [reflexivity|].
      unfold step_spec. simpl. spec_split.
    + eexists _, _. split; [reflexivity|].
      apply (step_spec_prefix (ETimerFires k) s
               (add_effects [Console LError "connect failed"] s0)); try done.
      * repeat constructor.
      * by apply step_spec_schedule.
Qed.

Lemma run_history_spec JSON_parse history s :
  exists s' es,
    run JSON_parse history s = (Normal tt, s') /\
    history_spec history s s' es /\
    trace s' = trace s ++ es.
Proof.
  revert s. induction history as [|a rest IH]; intros s.
  - exists s, []. split; [done|]. split; [constructor|by rewrite app_nil_r].
  - destruct (step_summary JSON_parse a s) as (s1 & es & Hstep & Hspec).
    destruct (IH s1) as (s' & es' & Hrun & Hhist & Htr).
    exists s', (es ++ es'). simpl. erewrite bind_run by exact Hstep.
    split; [exact Hrun|]. split; [by econstructor|].
    destruct Hspec as (Htr1 & _). by rewrite Htr, Htr1, app_assoc.
Qed.

Lemma run_effects JSON_parse history s s' es :
  run JSON_parse history s = (Normal tt, s') -> trace s' = trace s ++ es ->
  exec (run JSON_parse history) s = s' /\
  effects_of (run JSON_parse history) s = es.
Proof.
  intros Hrun Htr. split; [unfold exec; by rewrite Hrun|].
  apply effects_of_trace. unfold exec. by rewrite Hrun.
Qed.

(** X15: no sequence of method calls and browser events makes the manager
    throw: every public method and every event handler returns normally,
    whatever the state it is called in. *)
Theorem run_never_throws JSON_parse history s :
  outcome (run JSON_parse history) s = Normal tt.
Proof.
  destruct (run_history_spec JSON_parse history s) as (s' & es & Hrun & _).
  unfold outcome. by rewrite Hrun.
Qed.

Lemma history_attempts history s s' es :
  history_spec history s s' es ->
  maxReconnectAttempts s' = maxReconnectAttempts s /\
  (reconnectAttempts s <= maxReconnectAttempts s ->
   reconnectAttempts s' <= maxReconnectAttempts s).
Proof.
  induction 1 as [s|a rest s s1 s' es es' Hspec _ [IHm IHa]]; [done|].
  destruct Hspec as (_ & Hm & _ & _ & Ha & _).
  rewrite IHm, Hm. split; [done|]. intros Hle. rewrite <- Hm. apply IHa.
  rewrite Hm. by apply Ha.
Qed.

(** X16: the attempt counter never passes the cap: in a manager whose
    counter is within [maxReconnectAttempts], it is so after every sequence
    of calls and events, and the cap itself never changes. *)
Theorem attempts_stay_bounded JSON_parse history s :
  reconnectAttempts s <= maxReconnectAttempts s ->
  let s' := exec (run JSON_parse history) s in
  maxReconnectAttempts s' = maxReconnectAttempts s /\
  reconnectAttempts s' <= maxReconnectAttempts s'.
Proof.
  intros Hle s'.
  destruct (run_history_spec JSON_parse history s) as (s1 & es & Hrun & Hhist & Htr).
  destruct (run_effects _ _ _ _ _ Hrun Htr) as [Hs' _].
  unfold s'. rewrite Hs'.
  destruct (history_attempts _ _ _ _ Hhist) as [Hm Ha].
  rewrite Hm. auto.
Qed.

Lemma attempts_stay_bounded_witness :
  reconnectAttempts session <= maxReconnectAttempts session /\
  maxReconnectAttempts (exec (run parse_literal sample_history) session)
  = maxReconnectAttempts session.
Proof.
  assert (H : reconnectAttempts session <= maxReconnectAttempts session)
    by (vm_compute; lia).
  split; [exact H|].
  exact (proj1 (attempts_stay_bounded parse_literal sample_history session H)).
Defined.

Lemma history_retries history s s' es :
  Forall (fun a => is_open a = false) history ->
  history_spec history s s' es ->
  reconnectAttempts s' = reconnectAttempts s + length (timers_set_of es).
Proof.
  intros Hno Hhist. induction Hhist as [s|a rest s s1 s' es es' Hspec _ IH];
    [simpl; lia|].
  apply Forall_cons in Hno as [Ha Hno].
  destruct Hspec as (_ & _ & _ & Hatt & _). rewrite Ha in Hatt.
  rewrite IH by done. rewrite Hatt, timers_set_of_app, length_app. lia.
Qed.

(** X17: the retry cap holds between two opens.  Over any sequence of
    calls and events in which no connection opens, the attempt counter grows
    by exactly the number of retries scheduled, so a manager with [n]
    attempts counted schedules at most [maxReconnectAttempts - n]
    reconnection timers. *)
Theorem retries_capped_between_opens JSON_parse history s :
  Forall (fun a => is_open a = false) history ->
  reconnectAttempts s <= maxReconnectAttempts s ->
  let s' := exec (run JSON_parse history) s in
  let scheduled := timers_set_of (effects_of (run JSON_parse history) s) in
  reconnectAttempts s' = reconnectAttempts s + length scheduled /\
  length scheduled <= maxReconnectAttempts s - reconnectAttempts s.
Proof.
  intros Hno Hle s' scheduled.
  destruct (run_history_spec JSON_parse history s) as (s1 & es & Hrun & Hhist & Htr).
  destruct (run_effects _ _ _ _ _ Hrun Htr) as [Hs' Hes].
  unfold s', scheduled. rewrite Hs', Hes.
  pose proof (history_retries _ _ _ _ Hno Hhist) as Hcount.
  destruct (history_attempts _ _ _ _ Hhist) as [_ Ha].
  specialize (Ha Hle). split; [done|]. lia.
Qed.

Lemma retries_capped_between_opens_witness :
  Forall (fun a => is_open a = false)
         [ESocketCloses 0 1006; ETimerFires 0; ESocketCloses 1 1006; AConnect] /\
  reconnectAttempts session <= maxReconnectAttempts session /\
  reconnectAttempts
    (exec (run parse_literal
             [ESocketCloses 0 1006; ETimerFires 0; ESocketCloses 1 1006; AConnect])
          session) = 2.
Proof.
  assert (Hno : Forall (fun a => is_open a = false)
            [ESocketCloses 0 1006; ETimerFires 0; ESocketCloses 1 1006; AConnect])
    by (repeat constructor).
  assert (H : reconnectAttempts session <= maxReconnectAttempts session)
    by (vm_compute; lia).
  split; [exact Hno|]. split; [exact H|].
  exact (proj1 (retries_capped_between_opens parse_literal _ session Hno H)).
Defined.

Lemma next_interval_on_schedule q :
  q ∈ backoff_values ->
  next_interval q ∈ backoff_values /\ (q <= next_interval q)%Q /\
  (q <= 30000)%Q.
Proof.
  unfold backoff_values. intros Hq.
  repeat (apply elem_of_cons in Hq as [->|Hq]);
    [..|by apply elem_of_nil in Hq].
  all: split; [vm_compute; set_solver|split; vm_compute; discriminate].
Qed.

Lemma history_delay history s s' es :
  history_spec history s s' es ->
  reconnectInterval s ∈ backoff_values ->
  reconnectInterval s' ∈ backoff_values /\
  (reconnectInterval s <= reconnectInterval s')%Q /\
  Forall (fun d => d ∈ backoff_values) (timers_set_of es).
Proof.
  induction 1 as [s|a rest s s1 s' es es' Hspec _ IH]; intros Hin.
  - split; [done|]. split; [apply Qle_refl|constructor].
  - destruct Hspec as (_ & _ & _ & _ & _ & Hint & Hset & _).
    destruct (next_interval_on_schedule _ Hin) as (Hnext & Hle & _).
    assert (H1 : reconnectInterval s1 ∈ backoff_values /\
                 (reconnectInterval s <= reconnectInterval s1)%Q).
    { destruct Hint as [-> | ->]; [split; [done|apply Qle_refl]|done]. }
    destruct H1 as [Hin1 Hle1]. destruct (IH Hin1) as (Hin' & Hle' & Hall).
    split; [done|]. split; [by eapply Qle_trans|].
    rewrite timers_set_of_app. apply Forall_app. split; [|done].
    eapply Forall_impl; [exact Hset|]. by intros d ->.
Qed.

(** X18: the reconnect delay stays on the backoff schedule.  From a delay
    that is one of 5000, 7500, 11250, 16875, 25312.5 and 30000 ms, every
    sequence of calls and events leaves the delay on that list, never lowers
    it, never raises it above the cap of 30000 ms, and schedules retries
    only after delays of that list. *)
Theorem delay_stays_on_schedule JSON_parse history s :
  reconnectInterval s ∈ backoff_values ->
  let s' := exec (run JSON_parse history) s in
  reconnectInterval s' ∈ backoff_values /\
  (reconnectInterval s <= reconnectInterval s')%Q /\
  (reconnectInterval s' <= 30000)%Q /\
  Forall (fun d => d ∈ backoff_values)
         (timers_set_of (effects_of (run JSON_parse history) s)).
Proof.
  intros Hin s'.
  destruct (run_history_spec JSON_parse history s) as (s1 & es & Hrun & Hhist & Htr).
  destruct (run_effects _ _ _ _ _ Hrun Htr) as [Hs' Hes].
  unfold s'. rewrite Hs', Hes.
  destruct (history_delay _ _ _ _ Hhist Hin) as (Hin' & Hle & Hall).
  repeat split; try done.
  by destruct (next_interval_on_schedule _ Hin') as (_ & _ & Hcap).
Qed.

Lemma delay_stays_on_schedule_witness :
  reconnectInterval session ∈ backoff_values /\
  reconnectInterval (exec (run parse_literal sample_history) session)
    ∈ backoff_values.
Proof.
  assert (H : reconnectInterval session ∈ backoff_values) by (vm_compute; left).
  split; [exact H|].
  exact (proj1 (delay_stays_on_schedule parse_literal sample_history session H)).
Defined.

Lemma history_frames history s s' es :
  history_spec history s s' es ->
  (Forall (fun a => is_subscription_call a = false) history ->
   subscriptions s' = subscriptions s) /\
  (Forall (fun a => is_registration a = false) history ->
   messageHandlers s' = messageHandlers s).
Proof.
  induction 1 as [s|a rest s s1 s' es es' Hspec _ [IHs IHh]]; [done|].
  destruct Hspec as (_ & _ & _ & _ & _ & _ & _ & Hsub & Hh & _).
  split; intros Hall; apply Forall_cons in Hall as [Ha Hall].
  - rewrite IHs by done. by apply Hsub.
  - rewrite IHh by done. by apply Hh.
Qed.

(** X19: the subscription set survives everything but [subscribe] and
    [unsubscribe]: connection losses, retries, reconnections (with their
    re-subscription), [disconnect()], inbound frames and listener
    registrations leave it as it is. *)
Theorem subscriptions_survive JSON_parse history s :
  Forall (fun a => is_subscription_call a = false) history ->
  subscriptions (exec (run JSON_parse history) s) = subscriptions s.
Proof.
  intros Hall.
  destruct (run_history_spec JSON_parse history s) as (s1 & es & Hrun & Hhist & Htr).
  destruct (run_effects _ _ _ _ _ Hrun Htr) as [-> _].
  by apply (history_frames _ _ _ _ Hhist).
Qed.

Lemma subscriptions_survive_witness :
  Forall (fun a => is_subscription_call a = false) sample_history /\
  subscriptions (exec (run parse_literal sample_history) offline_subscribed)
  = ["M-01"].
Proof.
  assert (H : Forall (fun a => is_subscription_call a = false) sample_history)
    by (repeat constructor).
  split; [exact H|].
  exact (subscriptions_survive parse_literal sample_history offline_subscribed H).
Defined.

(** X20: the registered listeners are changed by [on] and [off] only: no
    other call and no event adds, removes or reorders a listener. *)
Theorem listeners_survive JSON_parse history s :
  Forall (fun a => is_registration a = false) history ->
  messageHandlers (exec (run JSON_parse history) s) = messageHandlers s.
Proof.
  intros Hall.
  destruct (run_history_spec JSON_parse history s) as (s1 & es & Hrun & Hhist & Htr).
  destruct (run_effects _ _ _ _ _ Hrun Htr) as [-> _].
  by apply (history_frames _ _ _ _ Hhist).
Qed.

Lemma listeners_survive_witness :
  Forall (fun a => is_registration a = false) sample_history /\
  listeners "ping" (exec (run parse_literal sample_history) session)
  = listeners "ping" session.
Proof.
  assert (H : Forall (fun a => is_registration a = false) sample_history)
    by (repeat constructor).
  split; [exact H|].
  unfold listeners.
  by rewrite (listeners_survive parse_literal sample_history session H).
Defined.

Lemma history_sockets history s s' es :
  history_spec history s s' es ->
  length (sockets_created_of es)
    <= length (filter (fun a => may_connect a = true) history) /\
  length (sockets s') = length (sockets s) + length (sockets_created_of es).
Proof.
  induction 1 as [s|a rest s s1 s' es es' Hspec _ [IHc IHl]]; [simpl; lia|].
  destruct Hspec as (_ & _ & _ & _ & _ & _ & _ & _ & _ & Hno & Hone & Hlen).
  rewrite sockets_created_of_app, length_app, filter_cons, IHl, Hlen.
  split; [|lia].
  destruct (decide (may_connect a = true)) as [Hyes|Hnot]; simpl; [lia|].
  rewrite Hno by (by destruct (may_connect a)). simpl. lia.
Qed.

(** X21: connections are opened by [connect()] and by expiring retry
    timers only.  Over any sequence of calls and events the manager creates
    at most one socket per [connect()] call or timer expiry, and none
    otherwise. *)
Theorem sockets_come_from_connect JSON_parse history s :
  let s' := exec (run JSON_parse history) s in
  let created := sockets_created_of (effects_of (run JSON_parse history) s) in
  length created <= length (filter (fun a => may_connect a = true) history) /\
  length (sockets s') = length (sockets s) + length created.
Proof.
  intros s' created.
  destruct (run_history_spec JSON_parse history s) as (s1 & es & Hrun & Hhist & Htr).
  destruct (run_effects _ _ _ _ _ Hrun Htr) as [Hs' Hes].
  unfold s', created. rewrite Hs', Hes.
  by apply history_sockets.
Qed.
